(** * The in-memory storage layer of the collaborative task board

    A shallow embedding of [MemStorage] (server/storage.ts) and of the entity
    types of shared/schema.ts.

    Conventions of the embedding.
    - Handles and the four id counters are JavaScript numbers that only ever
      hold integers; they are modelled as [Z].
    - [new Date()] reads the clock; the reading is an extra argument [now]
      (milliseconds since the epoch) of the operations that take it.
    - A JavaScript [Map] is an insertion-ordered sequence of entries with
      pairwise distinct keys: [JsMap.t].
    - A property typed [T | null | undefined] is an [option T]; in a
      [Partial<_>] object the outer [option] says whether the property is
      present at all.  A property that the program can leave holding
      [undefined] although its type has no [undefined] is an
      [undefinable T].
    - Every method is [async] but contains no suspension point before its
      last store access, so a call is a function from store to result and
      store. *)

From Stdlib Require Import ZArith List String Bool Lia.
Import ListNotations.
Local Open Scope Z_scope.

(** ** JavaScript [Map<number, V>] *)

Module JsMap.
Section WithValue.
Context {V : Type}.

Definition t : Type := list (Z * V).

Definition empty : t := [].

Definition entries (m : t) : list (Z * V) := m.
Definition keys (m : t) : list Z := map fst m.
Definition values (m : t) : list V := map snd m.

(** [m.get(k)] *)
Fixpoint get (k : Z) (m : t) : option V :=
  match m with
  | [] => None
  | (k', v) :: rest => if k' =? k then Some v else get k rest
  end.

Definition has (k : Z) (m : t) : bool :=
  match get k m with Some _ => true | None => false end.

(** [m.set(k, v)]: an existing key keeps its position, a new key goes last. *)
Fixpoint set (k : Z) (v : V) (m : t) : t :=
  match m with
  | [] => [(k, v)]
  | (k', v') :: rest =>
      if k' =? k then (k, v) :: rest else (k', v') :: set k v rest
  end.

Definition remove (k : Z) (m : t) : t :=
  filter (fun e => negb (fst e =? k)) m.

(** [m.delete(k)]: whether the key was present, and the map without it. *)
Definition delete (k : Z) (m : t) : bool * t := (has k m, remove k m).

(** The representation invariant of a [Map]: no key occurs twice. *)
Definition wf (m : t) : Prop := NoDup (keys m).

(** Every key lies below the bound [c]. *)
Definition below (c : Z) (m : t) : Prop := Forall (fun k => k < c) (keys m).
End WithValue.
Arguments t : clear implicits.
End JsMap.

(** ** JavaScript [Set<number>] *)

Module JsSet.
Definition t : Type := list Z.
Definition empty : t := [].
Definition has (x : Z) (s : t) : bool := existsb (Z.eqb x) s.
(** [s.add(x)] *)
Definition add (x : Z) (s : t) : t := if has x s then s else s ++ [x].
(** [xs.forEach(x => s.add(x))] *)
Definition add_all (xs : list Z) (s : t) : t :=
  fold_left (fun acc x => add x acc) xs s.
(** [Array.from(s)] *)
Definition to_list (s : t) : list Z := s.
End JsSet.

(** ** Truthiness in [x || d] *)

Definition truthy_string (s : string) : bool := negb (String.eqb s "").

(** [x || null] for [x : string | null | undefined] *)
Definition string_or_null (x : option string) : option string :=
  match x with
  | Some s => if truthy_string s then Some s else None
  | None => None
  end.

(** [x || d] for [x : string | undefined] *)
Definition string_or (x : option string) (d : string) : string :=
  match x with
  | Some s => if truthy_string s then s else d
  | None => d
  end.

(** [x || null] for [x : number | null | undefined] *)
Definition number_or_null (x : option Z) : option Z :=
  match x with
  | Some n => if n =? 0 then None else Some n
  | None => None
  end.

(** [x || null] for [x : Date | null | undefined]: a [Date] object is truthy. *)
Definition date_or_null (x : option Z) : option Z := x.

(** What a property holds when [undefined] can get into it: the only caller
    of [updateBoard] builds [{ title, description, color }] from the request
    body, so each of the three is present and holds [undefined] when the
    body left it out, and the spread copies that into the stored board. *)
Inductive undefinable (A : Type) : Type :=
| Undefined
| Defined (a : A).
Arguments Undefined {A}.
Arguments Defined {A} a.

(** [{...a, ...b}] on one property: the later object wins when it has it. *)
Definition spread {A : Type} (base : A) (over : option A) : A :=
  match over with Some x => x | None => base end.

(** ** Entities (shared/schema.ts) *)

Module User.
Record t := mk {
  id : Z;
  username : string;
  password : string;
  phoneNumber : string;
  displayName : option string;
  photoURL : option string
}.
End User.

Module InsertUser.
Record t := mk {
  username : string;
  password : string;
  phoneNumber : string;
  displayName : option string;
  photoURL : option string
}.
End InsertUser.

Module Board.
Record t := mk {
  id : Z;
  title : undefinable string;
  description : undefinable (option string);
  color : undefinable string;
  createdBy : Z;
  createdAt : Z
}.
End Board.

Module InsertBoard.
Record t := mk {
  title : string;
  description : option string;
  color : option string;
  createdBy : Z
}.
End InsertBoard.

(** [Partial<Board>]: each property absent ([None]) or present.  A present
    [title], [description] or [color] can hold [undefined].  No caller sends
    [id], [createdBy] or [createdAt]; when present they hold a number. *)
Module PartialBoard.
Record t := mk {
  id : option Z;
  title : option (undefinable string);
  description : option (undefinable (option string));
  color : option (undefinable string);
  createdBy : option Z;
  createdAt : option Z
}.
Definition none : t := mk None None None None None None.
End PartialBoard.

Module BoardMember.
Record t := mk {
  id : Z;
  boardId : Z;
  userId : Z;
  role : string
}.
End BoardMember.

Module InsertBoardMember.
Record t := mk {
  boardId : Z;
  userId : Z;
  role : option string
}.
End InsertBoardMember.

Module Todo.
Record t := mk {
  id : Z;
  boardId : Z;
  title : string;
  description : option string;
  dueDate : option Z;
  priority : string;
  status : string;
  assignedTo : option Z;
  createdBy : Z;
  createdAt : Z;
  updatedAt : Z
}.
End Todo.

Module InsertTodo.
Record t := mk {
  boardId : Z;
  title : string;
  description : option string;
  dueDate : option Z;
  priority : option string;
  status : option string;
  assignedTo : option Z;
  createdBy : Z
}.
End InsertTodo.

(** [Partial<Todo>] *)
Module PartialTodo.
Record t := mk {
  id : option Z;
  boardId : option Z;
  title : option string;
  description : option (option string);
  dueDate : option (option Z);
  priority : option string;
  status : option string;
  assignedTo : option (option Z);
  createdBy : option Z;
  createdAt : option Z;
  updatedAt : option Z
}.
Definition none : t :=
  mk None None None None None None None None None None None.
End PartialTodo.

(** [Board & { todoCount; memberCount }], built as
    [{ ...board, todoCount, memberCount }]: spreading [undefined] adds no
    property, which is [board = None]. *)
Module BoardWithMemberCount.
Record t := mk {
  board : option Board.t;
  todoCount : nat;
  memberCount : nat
}.
End BoardWithMemberCount.

(** [Board & { members: User[] }]; a member whose account is missing is the
    [undefined] that [users.get] returned. *)
Module BoardWithMembers.
Record t := mk {
  board : Board.t;
  members : list (option User.t)
}.
End BoardWithMembers.

(** [Todo & { assignee?: User }] *)
Module TodoWithAssignee.
Record t := mk {
  todo : Todo.t;
  assignee : option User.t
}.
End TodoWithAssignee.

(** ** The store: [class MemStorage] *)

Record MemStorage := mkStore {
  users : JsMap.t User.t;
  boards : JsMap.t Board.t;
  boardMembers : JsMap.t BoardMember.t;
  todos : JsMap.t Todo.t;
  currentUserId : Z;
  currentBoardId : Z;
  currentBoardMemberId : Z;
  currentTodoId : Z
}.

(** [constructor()] *)
Definition init : MemStorage :=
  mkStore JsMap.empty JsMap.empty JsMap.empty JsMap.empty 1 1 1 1.

Definition set_users (m : JsMap.t User.t) (c : Z) (s : MemStorage) :=
  mkStore m (boards s) (boardMembers s) (todos s)
          c (currentBoardId s) (currentBoardMemberId s) (currentTodoId s).

Definition set_boards (m : JsMap.t Board.t) (c : Z) (s : MemStorage) :=
  mkStore (users s) m (boardMembers s) (todos s)
          (currentUserId s) c (currentBoardMemberId s) (currentTodoId s).

Definition set_boardMembers (m : JsMap.t BoardMember.t) (c : Z) (s : MemStorage) :=
  mkStore (users s) (boards s) m (todos s)
          (currentUserId s) (currentBoardId s) c (currentTodoId s).

Definition set_todos (m : JsMap.t Todo.t) (c : Z) (s : MemStorage) :=
  mkStore (users s) (boards s) (boardMembers s) m
          (currentUserId s) (currentBoardId s) (currentBoardMemberId s) c.

(** *** User operations *)

Definition getUser (id : Z) (s : MemStorage) : option User.t :=
  JsMap.get id (users s).

Definition getUserByUsername (username : string) (s : MemStorage)
  : option User.t :=
  find (fun user => String.eqb (User.username user) username)
       (JsMap.values (users s)).

Definition getUserByPhoneNumber (phoneNumber : string) (s : MemStorage)
  : option User.t :=
  find (fun user => String.eqb (User.phoneNumber user) phoneNumber)
       (JsMap.values (users s)).

Definition createUser (insertUser : InsertUser.t) (s : MemStorage)
  : User.t * MemStorage :=
  let id := currentUserId s in
  let user :=
    User.mk id
      (InsertUser.username insertUser)
      (InsertUser.password insertUser)
      (InsertUser.phoneNumber insertUser)
      (string_or_null (InsertUser.displayName insertUser))
      (string_or_null (InsertUser.photoURL insertUser)) in
  (user, set_users (JsMap.set id user (users s)) (id + 1) s).

(** *** Board operations *)

Definition todo_on (boardId : Z) (todo : Todo.t) : bool :=
  Todo.boardId todo =? boardId.

Definition member_on (boardId : Z) (member : BoardMember.t) : bool :=
  BoardMember.boardId member =? boardId.

Definition member_of (userId : Z) (member : BoardMember.t) : bool :=
  BoardMember.userId member =? userId.

Definition created_by (userId : Z) (board : Board.t) : bool :=
  Board.createdBy board =? userId.

Definition todoCount_of (boardId : Z) (s : MemStorage) : nat :=
  List.length (filter (todo_on boardId) (JsMap.values (todos s))).

Definition memberCount_of (boardId : Z) (s : MemStorage) : nat :=
  List.length (filter (member_on boardId) (JsMap.values (boardMembers s))).

Definition getBoards (s : MemStorage) : list BoardWithMemberCount.t :=
  map (fun board =>
         BoardWithMemberCount.mk (Some board)
           (todoCount_of (Board.id board) s)
           (memberCount_of (Board.id board) s))
      (JsMap.values (boards s)).

(** The [boardIds] set of [getBoardsByUser], after both [forEach] passes. *)
Definition boardIds_of (userId : Z) (s : MemStorage) : JsSet.t :=
  let created :=
    map Board.id (filter (created_by userId) (JsMap.values (boards s))) in
  let joined :=
    map BoardMember.boardId
        (filter (member_of userId) (JsMap.values (boardMembers s))) in
  JsSet.add_all joined (JsSet.add_all created JsSet.empty).

Definition getBoardsByUser (userId : Z) (s : MemStorage)
  : list BoardWithMemberCount.t :=
  map (fun boardId =>
         BoardWithMemberCount.mk (JsMap.get boardId (boards s))
           (todoCount_of boardId s)
           (memberCount_of boardId s))
      (JsSet.to_list (boardIds_of userId s)).

Definition getBoard (id : Z) (s : MemStorage) : option Board.t :=
  JsMap.get id (boards s).

Definition getBoardWithMembers (id : Z) (s : MemStorage)
  : option BoardWithMembers.t :=
  match JsMap.get id (boards s) with
  | None => None
  | Some board =>
      let memberIds :=
        map BoardMember.userId
            (filter (member_on id) (JsMap.values (boardMembers s))) in
      let members := map (fun userId => JsMap.get userId (users s)) memberIds in
      Some (BoardWithMembers.mk board members)
  end.

(** *** Board member operations *)

Definition getBoardMembers (boardId : Z) (s : MemStorage)
  : list BoardMember.t :=
  filter (member_on boardId) (JsMap.values (boardMembers s)).

Definition same_pair (boardId userId : Z) (member : BoardMember.t) : bool :=
  (BoardMember.boardId member =? boardId)
  && (BoardMember.userId member =? userId).

Definition addBoardMember (insertMember : InsertBoardMember.t)
  (s : MemStorage) : BoardMember.t * MemStorage :=
  match find (same_pair (InsertBoardMember.boardId insertMember)
                        (InsertBoardMember.userId insertMember))
             (JsMap.values (boardMembers s)) with
  | Some existingMember => (existingMember, s)
  | None =>
      let id := currentBoardMemberId s in
      let member :=
        BoardMember.mk id
          (InsertBoardMember.boardId insertMember)
          (InsertBoardMember.userId insertMember)
          (string_or (InsertBoardMember.role insertMember) "editor") in
      (member, set_boardMembers (JsMap.set id member (boardMembers s)) (id + 1) s)
  end.

(** The first entry of the loop over [boardMembers.entries()] that passes the
    test, where the loop stops. *)
Definition find_member_entry (boardId userId : Z) (s : MemStorage)
  : option (Z * BoardMember.t) :=
  find (fun e => same_pair boardId userId (snd e))
       (JsMap.entries (boardMembers s)).

Definition removeBoardMember (boardId userId : Z) (s : MemStorage)
  : bool * MemStorage :=
  match find_member_entry boardId userId s with
  | Some (memberId, _) =>
      (true,
       set_boardMembers (snd (JsMap.delete memberId (boardMembers s)))
                        (currentBoardMemberId s) s)
  | None => (false, s)
  end.

Definition updateBoardMemberRole (boardId userId : Z) (role : string)
  (s : MemStorage) : option BoardMember.t * MemStorage :=
  match find_member_entry boardId userId s with
  | Some (memberId, member) =>
      let updatedMember :=
        BoardMember.mk (BoardMember.id member) (BoardMember.boardId member)
                       (BoardMember.userId member) role in
      (Some updatedMember,
       set_boardMembers (JsMap.set memberId updatedMember (boardMembers s))
                        (currentBoardMemberId s) s)
  | None => (None, s)
  end.

(** *** Board mutations *)

Definition createBoard (insertBoard : InsertBoard.t) (now : Z)
  (s : MemStorage) : Board.t * MemStorage :=
  let id := currentBoardId s in
  let board :=
    Board.mk id
      (Defined (InsertBoard.title insertBoard))
      (Defined (string_or_null (InsertBoard.description insertBoard)))
      (Defined (string_or (InsertBoard.color insertBoard) "primary"))
      (InsertBoard.createdBy insertBoard)
      now in
  let s1 := set_boards (JsMap.set id board (boards s)) (id + 1) s in
  let '(_, s2) :=
    addBoardMember
      (InsertBoardMember.mk id (InsertBoard.createdBy insertBoard)
                            (Some "admin"%string)) s1 in
  (board, s2).

(** [{ ...board, ...updates }] *)
Definition merge_board (board : Board.t) (updates : PartialBoard.t) : Board.t :=
  Board.mk
    (spread (Board.id board) (PartialBoard.id updates))
    (spread (Board.title board) (PartialBoard.title updates))
    (spread (Board.description board) (PartialBoard.description updates))
    (spread (Board.color board) (PartialBoard.color updates))
    (spread (Board.createdBy board) (PartialBoard.createdBy updates))
    (spread (Board.createdAt board) (PartialBoard.createdAt updates)).

Definition updateBoard (id : Z) (updates : PartialBoard.t) (s : MemStorage)
  : option Board.t * MemStorage :=
  match JsMap.get id (boards s) with
  | None => (None, s)
  | Some board =>
      let updatedBoard := merge_board board updates in
      (Some updatedBoard,
       set_boards (JsMap.set id updatedBoard (boards s)) (currentBoardId s) s)
  end.

(** A [for (const [key, value] of m.entries())] loop that deletes the entry
    it is visiting when [test value] holds.  Deleting the visited entry does
    not disturb the iteration, so the loop sees every entry of the map it
    started from. *)
Definition delete_where {V : Type} (test : V -> bool) (m : JsMap.t V)
  : JsMap.t V :=
  fold_left
    (fun acc e => if test (snd e) then snd (JsMap.delete (fst e) acc) else acc)
    (JsMap.entries m) m.

Definition deleteBoard (id : Z) (s : MemStorage) : bool * MemStorage :=
  let '(deleted, boards') := JsMap.delete id (boards s) in
  let s1 := set_boards boards' (currentBoardId s) s in
  if deleted then
    let s2 :=
      set_boardMembers (delete_where (member_on id) (boardMembers s1))
                       (currentBoardMemberId s1) s1 in
    let s3 :=
      set_todos (delete_where (todo_on id) (todos s2)) (currentTodoId s2) s2 in
    (true, s3)
  else (false, s1).

(** *** Todo operations *)

Definition getTodos (boardId : Z) (s : MemStorage) : list TodoWithAssignee.t :=
  map (fun todo =>
         match number_or_null (Todo.assignedTo todo) with
         | Some assignedTo =>
             TodoWithAssignee.mk todo (JsMap.get assignedTo (users s))
         | None => TodoWithAssignee.mk todo None
         end)
      (filter (todo_on boardId) (JsMap.values (todos s))).

Definition getTodo (id : Z) (s : MemStorage) : option Todo.t :=
  JsMap.get id (todos s).

Definition createTodo (insertTodo : InsertTodo.t) (now : Z) (s : MemStorage)
  : Todo.t * MemStorage :=
  let id := currentTodoId s in
  let todo :=
    Todo.mk id
      (InsertTodo.boardId insertTodo)
      (InsertTodo.title insertTodo)
      (string_or_null (InsertTodo.description insertTodo))
      (date_or_null (InsertTodo.dueDate insertTodo))
      (string_or (InsertTodo.priority insertTodo) "medium")
      (string_or (InsertTodo.status insertTodo) "todo")
      (number_or_null (InsertTodo.assignedTo insertTodo))
      (InsertTodo.createdBy insertTodo)
      now
      now in
  (todo, set_todos (JsMap.set id todo (todos s)) (id + 1) s).

(** [{ ...todo, ...updates, updatedAt: new Date() }] *)
Definition merge_todo (todo : Todo.t) (updates : PartialTodo.t) (now : Z)
  : Todo.t :=
  Todo.mk
    (spread (Todo.id todo) (PartialTodo.id updates))
    (spread (Todo.boardId todo) (PartialTodo.boardId updates))
    (spread (Todo.title todo) (PartialTodo.title updates))
    (spread (Todo.description todo) (PartialTodo.description updates))
    (spread (Todo.dueDate todo) (PartialTodo.dueDate updates))
    (spread (Todo.priority todo) (PartialTodo.priority updates))
    (spread (Todo.status todo) (PartialTodo.status updates))
    (spread (Todo.assignedTo todo) (PartialTodo.assignedTo updates))
    (spread (Todo.createdBy todo) (PartialTodo.createdBy updates))
    (spread (Todo.createdAt todo) (PartialTodo.createdAt updates))
    now.

Definition updateTodo (id : Z) (updates : PartialTodo.t) (now : Z)
  (s : MemStorage) : option Todo.t * MemStorage :=
  match JsMap.get id (todos s) with
  | None => (None, s)
  | Some todo =>
      let updatedTodo := merge_todo todo updates now in
      (Some updatedTodo,
       set_todos (JsMap.set id updatedTodo (todos s)) (currentTodoId s) s)
  end.

Definition deleteTodo (id : Z) (s : MemStorage) : bool * MemStorage :=
  let '(deleted, todos') := JsMap.delete id (todos s) in
  (deleted, set_todos todos' (currentTodoId s) s).

(** ** The storage interface as a transition system ([interface IStorage]) *)

Inductive Op :=
| OpGetUser (id : Z)
| OpGetUserByUsername (username : string)
| OpGetUserByPhoneNumber (phoneNumber : string)
| OpCreateUser (user : InsertUser.t)
| OpGetBoards
| OpGetBoardsByUser (userId : Z)
| OpGetBoard (id : Z)
| OpGetBoardWithMembers (id : Z)
| OpCreateBoard (board : InsertBoard.t) (now : Z)
| OpUpdateBoard (id : Z) (updates : PartialBoard.t)
| OpDeleteBoard (id : Z)
| OpGetBoardMembers (boardId : Z)
| OpAddBoardMember (member : InsertBoardMember.t)
| OpRemoveBoardMember (boardId userId : Z)
| OpUpdateBoardMemberRole (boardId userId : Z) (role : string)
| OpGetTodos (boardId : Z)
| OpGetTodo (id : Z)
| OpCreateTodo (todo : InsertTodo.t) (now : Z)
| OpUpdateTodo (id : Z) (updates : PartialTodo.t) (now : Z)
| OpDeleteTodo (id : Z).

(** What the promise of a call resolves to. *)
Inductive Response :=
| RUndefined
| RBool (b : bool)
| RUser (u : User.t)
| RBoard (b : Board.t)
| RBoardsWithCounts (l : list BoardWithMemberCount.t)
| RBoardWithMembers (b : BoardWithMembers.t)
| RMember (m : BoardMember.t)
| RMembers (l : list BoardMember.t)
| RTodo (t : Todo.t)
| RTodos (l : list TodoWithAssignee.t).

Definition optional {A : Type} (inj : A -> Response) (x : option A) : Response :=
  match x with Some a => inj a | None => RUndefined end.

Definition exec (op : Op) (s : MemStorage) : Response * MemStorage :=
  match op with
  | OpGetUser id => (optional RUser (getUser id s), s)
  | OpGetUserByUsername n => (optional RUser (getUserByUsername n s), s)
  | OpGetUserByPhoneNumber p => (optional RUser (getUserByPhoneNumber p s), s)
  | OpCreateUser u => let '(r, s') := createUser u s in (RUser r, s')
  | OpGetBoards => (RBoardsWithCounts (getBoards s), s)
  | OpGetBoardsByUser u => (RBoardsWithCounts (getBoardsByUser u s), s)
  | OpGetBoard id => (optional RBoard (getBoard id s), s)
  | OpGetBoardWithMembers id =>
      (optional RBoardWithMembers (getBoardWithMembers id s), s)
  | OpCreateBoard b now => let '(r, s') := createBoard b now s in (RBoard r, s')
  | OpUpdateBoard id u =>
      let '(r, s') := updateBoard id u s in (optional RBoard r, s')
  | OpDeleteBoard id => let '(r, s') := deleteBoard id s in (RBool r, s')
  | OpGetBoardMembers b => (RMembers (getBoardMembers b s), s)
  | OpAddBoardMember m => let '(r, s') := addBoardMember m s in (RMember r, s')
  | OpRemoveBoardMember b u =>
      let '(r, s') := removeBoardMember b u s in (RBool r, s')
  | OpUpdateBoardMemberRole b u role =>
      let '(r, s') := updateBoardMemberRole b u role s in (optional RMember r, s')
  | OpGetTodos b => (RTodos (getTodos b s), s)
  | OpGetTodo id => (optional RTodo (getTodo id s), s)
  | OpCreateTodo t now => let '(r, s') := createTodo t now s in (RTodo r, s')
  | OpUpdateTodo id u now =>
      let '(r, s') := updateTodo id u now s in (optional RTodo r, s')
  | OpDeleteTodo id => let '(r, s') := deleteTodo id s in (RBool r, s')
  end.

Definition step (op : Op) (s : MemStorage) : MemStorage := snd (exec op s).

(** A sequence of calls, each run to completion before the next. *)
Definition run (ops : list Op) (s : MemStorage) : MemStorage :=
  fold_left (fun acc op => step op acc) ops s.

Inductive reachable : MemStorage -> Prop :=
| reach_init : reachable init
| reach_step : forall op s, reachable s -> reachable (step op s).

(** The four entity kinds, the handles in use and the next handle of each. *)
Inductive Kind := KUser | KBoard | KBoardMember | KTodo.

Definition handles (k : Kind) (s : MemStorage) : list Z :=
  match k with
  | KUser => JsMap.keys (users s)
  | KBoard => JsMap.keys (boards s)
  | KBoardMember => JsMap.keys (boardMembers s)
  | KTodo => JsMap.keys (todos s)
  end.

Definition counter (k : Kind) (s : MemStorage) : Z :=
  match k with
  | KUser => currentUserId s
  | KBoard => currentBoardId s
  | KBoardMember => currentBoardMemberId s
  | KTodo => currentTodoId s
  end.

(** The step from [s] to [s'] gave the handle [h] to a new entity of kind [k]. *)
Definition assigned (k : Kind) (h : Z) (s s' : MemStorage) : Prop :=
  ~ In h (handles k s) /\ In h (handles k s').

(** A call never lowers a counter, and when a handle appears that was not in
    use, it is the counter's value, and the counter moves past it. *)
Definition grows (k : Kind) (s s' : MemStorage) : Prop :=
  counter k s <= counter k s'
  /\ forall h, In h (handles k s') ->
       In h (handles k s) \/ (h = counter k s /\ counter k s' = h + 1).

(** The (board, account) pair of a membership. *)
Definition pair_of (member : BoardMember.t) : Z * Z :=
  (BoardMember.boardId member, BoardMember.userId member).

(** The memberships of account [userId] on board [boardId]. *)
Definition memberships (boardId userId : Z) (s : MemStorage)
  : list BoardMember.t :=
  filter (same_pair boardId userId) (JsMap.values (boardMembers s)).

(** What every reachable store satisfies. *)
Record store_inv (s : MemStorage) : Prop := mk_store_inv {
  inv_users_wf : JsMap.wf (users s);
  inv_boards_wf : JsMap.wf (boards s);
  inv_members_wf : JsMap.wf (boardMembers s);
  inv_todos_wf : JsMap.wf (todos s);
  inv_users_below : JsMap.below (currentUserId s) (users s);
  inv_boards_below : JsMap.below (currentBoardId s) (boards s);
  inv_members_below : JsMap.below (currentBoardMemberId s) (boardMembers s);
  inv_todos_below : JsMap.below (currentTodoId s) (todos s);
  inv_pairs : NoDup (map pair_of (JsMap.values (boardMembers s)))
}.

(** Every board is stored under its own [id]. *)
Definition boards_keyed (s : MemStorage) : Prop :=
  JsMap.wf (boards s) /\
  Forall (fun e => Board.id (snd e) = fst e) (JsMap.entries (boards s)).

(** The call does not move a board away from its handle: an [updateBoard]
    either carries no [id] or carries the handle itself. *)
Definition keeps_board_ids (op : Op) : Prop :=
  match op with
  | OpUpdateBoard id updates =>
      PartialBoard.id updates = None \/ PartialBoard.id updates = Some id
  | _ => True
  end.

(** The not-found outcomes: [undefined] and [false]. *)
Definition is_sentinel (r : Response) : bool :=
  match r with
  | RUndefined => true
  | RBool b => negb b
  | _ => false
  end.

(** Whether the entity that a call addresses is missing from the store. *)
Definition target_missing (op : Op) (s : MemStorage) : bool :=
  match op with
  | OpGetUser id => negb (JsMap.has id (users s))
  | OpGetUserByUsername n =>
      negb (existsb (fun u => String.eqb (User.username u) n)
                    (JsMap.values (users s)))
  | OpGetUserByPhoneNumber p =>
      negb (existsb (fun u => String.eqb (User.phoneNumber u) p)
                    (JsMap.values (users s)))
  | OpGetBoard id | OpGetBoardWithMembers id
  | OpUpdateBoard id _ | OpDeleteBoard id =>
      negb (JsMap.has id (boards s))
  | OpRemoveBoardMember b u | OpUpdateBoardMemberRole b u _ =>
      negb (existsb (same_pair b u) (JsMap.values (boardMembers s)))
  | OpGetTodo id | OpUpdateTodo id _ _ | OpDeleteTodo id =>
      negb (JsMap.has id (todos s))
  | OpCreateUser _ | OpGetBoards | OpGetBoardsByUser _ | OpCreateBoard _ _
  | OpGetBoardMembers _ | OpAddBoardMember _ | OpGetTodos _
  | OpCreateTodo _ _ => false
  end.

(** The membership that [createBoard] asks [addBoardMember] for. *)
Definition bootstrap_member (d : InsertBoard.t) (s : MemStorage) : BoardMember.t :=
  BoardMember.mk (currentBoardMemberId s) (currentBoardId s)
                 (InsertBoard.createdBy d) "admin".

(** ** A sample store

    Two accounts, two boards, a second member on the first board and one
    todo on each board. *)
Definition sample_ops : list Op :=
  [ OpCreateUser (InsertUser.mk "alice" "h1" "+15550001" None None);
    OpCreateUser (InsertUser.mk "bob" "h2" "+15550002" (Some "Bob"%string) None);
    OpCreateBoard (InsertBoard.mk "Launch Plan" None None 1) 1000;
    OpCreateBoard (InsertBoard.mk "Backlog" (Some "later"%string)
                                  (Some "accent"%string) 2) 1001;
    OpAddBoardMember (InsertBoardMember.mk 1 2 None);
    OpCreateTodo (InsertTodo.mk 1 "Write spec" None None None None None 1) 1002;
    OpCreateTodo (InsertTodo.mk 2 "Triage" None None (Some "high"%string) None
                                (Some 1) 2) 1003 ].

Definition sample : MemStorage := run sample_ops init.

(** ** Further invariants *)

(** Every account and every membership is stored under its own [id]. *)
Definition accounts_keyed (s : MemStorage) : Prop :=
  Forall (fun e => User.id (snd e) = fst e) (JsMap.entries (users s)).

Definition members_keyed (s : MemStorage) : Prop :=
  Forall (fun e => BoardMember.id (snd e) = fst e)
         (JsMap.entries (boardMembers s)).

(** What [getTodos] makes of one todo: the todo, with the account stored
    under [assignedTo] attached when [assignedTo] is truthy. *)
Definition with_assignee (s : MemStorage) (todo : Todo.t) : TodoWithAssignee.t :=
  match number_or_null (Todo.assignedTo todo) with
  | Some assignedTo => TodoWithAssignee.mk todo (JsMap.get assignedTo (users s))
  | None => TodoWithAssignee.mk todo None
  end.

(** The entry stored under [k] replaced by [(k, v)], every other entry kept. *)
Definition retag (k : Z) (v : BoardMember.t) (e : Z * BoardMember.t)
  : Z * BoardMember.t :=
  if fst e =? k then (k, v) else e.

(** The phone numbers of the stored accounts, in insertion order. *)
Definition phones (s : MemStorage) : list string :=
  map User.phoneNumber (JsMap.values (users s)).

(** ** The handlers that guard the store (server/routes.ts)

    A handler is a function from the parts of the request it reads and the
    store to the reply it sends and the store it leaves.  The two functions
    of server/utils/password.ts wrap the bcryptjs library; they are
    parameters here, and a rejection of theirs (which the handlers turn into
    a reply 500) is not modelled. *)

(** [const { password, ...userWithoutPassword } = user] *)
Module PublicUser.
Record t := mk {
  id : Z;
  username : string;
  phoneNumber : string;
  displayName : option string;
  photoURL : option string
}.
End PublicUser.

Definition without_password (user : User.t) : PublicUser.t :=
  PublicUser.mk (User.id user) (User.username user) (User.phoneNumber user)
                (User.displayName user) (User.photoURL user).

(** The JSON bodies the modelled handlers send. *)
Inductive Json :=
| JMessage (message : string)
| JInvalidInput
| JPublicUser (user : PublicUser.t)
| JExists (b : bool)
| JMember (member : BoardMember.t)
| JBoard (board : Board.t).

Record Reply := mkReply { status : Z; payload : Json }.

(** [!x] for a property of [req.body] that is a string when present. *)
Definition missing (x : option string) : bool :=
  match x with Some str => negb (truthy_string str) | None => true end.

(** The string that a present property holds. *)
Definition text (x : option string) : string :=
  match x with Some str => str | None => EmptyString end.

(** [['viewer', 'editor', 'admin'].includes(role)] *)
Definition valid_role (role : string) : bool :=
  existsb (String.eqb role) ["viewer"; "editor"; "admin"]%string.

Section Handlers.
Variable hashPassword : string -> string.
Variable comparePassword : string -> string -> bool.

(** [POST /api/auth/register]; [body] is [None] when
    [insertUserSchema.parse] throws.  The handler reads the store, then
    awaits [hashPassword], and only then calls [createUser].  While it waits
    other requests run: [during] is the sequence of storage calls they make
    in that time, so [createUser] works on [run during s], not on the store
    [s] that the phone number was looked up in. *)
Definition register (body : option InsertUser.t) (during : list Op)
  (s : MemStorage) : Reply * MemStorage :=
  match body with
  | None => (mkReply 400 JInvalidInput, s)
  | Some userData =>
      match getUserByPhoneNumber (InsertUser.phoneNumber userData) s with
      | Some _ =>
          (mkReply 409 (JMessage "User with this phone number already exists"),
           s)
      | None =>
          let hashedPassword := hashPassword (InsertUser.password userData) in
          let '(user, s') :=
            createUser
              (InsertUser.mk (InsertUser.username userData) hashedPassword
                             (InsertUser.phoneNumber userData)
                             (InsertUser.displayName userData)
                             (InsertUser.photoURL userData))
              (run during s) in
          (mkReply 201 (JPublicUser (without_password user)), s')
      end
  end.

(** [POST /api/auth/verify-phone] *)
Definition verifyPhone (phoneNumber : option string) (s : MemStorage) : Reply :=
  if missing phoneNumber
  then mkReply 400 (JMessage "Phone number is required")
  else mkReply 200
         (JExists (match getUserByPhoneNumber (text phoneNumber) s with
                   | Some _ => true
                   | None => false
                   end)).

(** [POST /api/auth/login] *)
Definition login (phoneNumber password : option string) (s : MemStorage)
  : Reply :=
  if missing phoneNumber
  then mkReply 400 (JMessage "Phone number is required")
  else if missing password
  then mkReply 400 (JMessage "Password is required")
  else
    match getUserByPhoneNumber (text phoneNumber) s with
    | None => mkReply 404 (JMessage "User not found")
    | Some user =>
        if comparePassword (text password) (User.password user)
        then mkReply 200 (JPublicUser (without_password user))
        else mkReply 401 (JMessage "Invalid credentials")
    end.

(** [PATCH /api/boards/:boardId/members/:userId]; a path parameter is [None]
    when [parseInt] gives [NaN]. *)
Definition patchMemberRole (boardId userId : option Z) (role : option string)
  (s : MemStorage) : Reply * MemStorage :=
  match boardId, userId with
  | Some b, Some u =>
      if missing role || negb (valid_role (text role))
      then (mkReply 400 (JMessage "Valid role is required"), s)
      else
        match updateBoardMemberRole b u (text role) s with
        | (Some updatedMember, s') => (mkReply 200 (JMember updatedMember), s')
        | (None, s') => (mkReply 404 (JMessage "Board member not found"), s')
        end
  | _, _ =>
      (mkReply 400 (JMessage "Valid board ID and user ID are required"), s)
  end.

(** [PUT /api/boards/:id]; [title], [description] and [color] are what
    [const { title, description, color } = req.body] reads, [Undefined] for
    a property the body does not have. *)
Definition putBoard (boardId : option Z) (title : undefinable string)
  (description : undefinable (option string)) (color : undefinable string)
  (s : MemStorage) : Reply * MemStorage :=
  match boardId with
  | Some id =>
      let updates :=
        PartialBoard.mk None (Some title) (Some description) (Some color)
                        None None in
      match updateBoard id updates s with
      | (Some updatedBoard, s') => (mkReply 200 (JBoard updatedBoard), s')
      | (None, s') => (mkReply 404 (JMessage "Board not found"), s')
      end
  | None => (mkReply 400 (JMessage "Valid board ID is required"), s)
  end.
End Handlers.

(** * Properties *)

(** ** Facts about [JsMap] *)

Module JsMapFacts.
Import JsMap.
Section WithValue.
Context {V : Type}.
Implicit Types (m : JsMap.t V) (k : Z) (v : V).

Lemma get_In k v m : get k m = Some v -> In (k, v) m.
Proof.
  induction m as [|[k' v'] m IH]; simpl; [discriminate|].
  destruct (Z.eqb_spec k' k) as [->|Hne].
  - intros [= ->]. now left.
  - intros H. right. now apply IH.
Qed.

Lemma get_None k m : get k m = None <-> ~ In k (keys m).
Proof.
  induction m as [|[k' v'] m IH]; simpl.
  - tauto.
  - destruct (Z.eqb_spec k' k) as [->|Hne].
    + split; [discriminate | intros H; exfalso; apply H; now left].
    + rewrite IH. intuition.
Qed.

Lemma has_true k m : has k m = true <-> In k (keys m).
Proof.
  unfold has. destruct (get k m) eqn:E.
  - split; [intros _|reflexivity].
    apply get_In in E. apply (in_map fst) in E. exact E.
  - apply get_None in E. split; [discriminate | tauto].
Qed.

Lemma has_false k m : has k m = false <-> get k m = None.
Proof. unfold has. destruct (get k m); split; congruence. Qed.

Lemma In_get k v m : wf m -> In (k, v) m -> get k m = Some v.
Proof.
  unfold wf, keys. induction m as [|[k' v'] m IH]; simpl; [tauto|].
  intros Hnd [Heq|Hin].
  - injection Heq as -> ->. now rewrite Z.eqb_refl.
  - inversion Hnd as [|? ? Hnotin Hnd']; subst.
    destruct (Z.eqb_spec k' k) as [->|Hne].
    + exfalso. apply Hnotin. now apply (in_map fst) in Hin.
    + now apply IH.
Qed.

Lemma get_set_eq k v m : get k (set k v m) = Some v.
Proof.
  induction m as [|[k' v'] m IH]; simpl.
  - now rewrite Z.eqb_refl.
  - destruct (Z.eqb_spec k' k) as [->|Hne]; simpl.
    + now rewrite Z.eqb_refl.
    + destruct (Z.eqb_spec k' k); [contradiction | exact IH].
Qed.

Lemma get_set_ne k k' v m : k <> k' -> get k' (set k v m) = get k' m.
Proof.
  intros Hne. induction m as [|[k0 v0] m IH]; simpl.
  - destruct (Z.eqb_spec k k'); [contradiction | reflexivity].
  - destruct (Z.eqb_spec k0 k) as [->|Hne0]; simpl.
    + destruct (Z.eqb_spec k k'); [contradiction | reflexivity].
    + now rewrite IH.
Qed.

Lemma set_present k v m : In k (keys m) -> keys (set k v m) = keys m.
Proof.
  unfold keys. induction m as [|[k' v'] m IH]; simpl; [tauto|].
  intros H. destruct (Z.eqb_spec k' k) as [->|Hne]; simpl; [reflexivity|].
  f_equal. apply IH. destruct H; [contradiction | assumption].
Qed.

Lemma set_fresh k v m : ~ In k (keys m) -> set k v m = m ++ [(k, v)].
Proof.
  unfold keys. induction m as [|[k' v'] m IH]; simpl; [reflexivity|].
  intros H. destruct (Z.eqb_spec k' k) as [->|Hne].
  - exfalso. apply H. now left.
  - f_equal. apply IH. tauto.
Qed.

Lemma keys_set k v m : forall h, In h (keys (set k v m)) <-> h = k \/ In h (keys m).
Proof.
  intros h. destruct (in_dec Z.eq_dec k (keys m)) as [Hin|Hnin].
  - rewrite set_present by assumption. split; [tauto|].
    intros [->|H]; assumption.
  - rewrite set_fresh by assumption. unfold keys. rewrite map_app, in_app_iff.
    simpl. intuition.
Qed.

Lemma wf_set k v m : wf m -> wf (set k v m).
Proof.
  unfold wf. intros Hwf. destruct (in_dec Z.eq_dec k (keys m)) as [Hin|Hnin].
  - now rewrite set_present.
  - rewrite set_fresh by assumption. unfold keys in *. rewrite map_app. simpl.
    apply NoDup_app; [assumption | repeat constructor; simpl; tauto |].
    intros x Hx [<-|[]]. contradiction.
Qed.

Lemma below_set k v c m : below c m -> k < c -> below c (set k v m).
Proof.
  unfold below. rewrite !Forall_forall. intros H Hk h Hh.
  apply keys_set in Hh. destruct Hh as [->|Hh]; auto.
Qed.

Lemma below_mono c c' m : below c m -> c <= c' -> below c' m.
Proof.
  unfold below. rewrite !Forall_forall. intros H Hc h Hh.
  specialize (H h Hh). lia.
Qed.

Lemma below_fresh c m : below c m -> ~ In c (keys m).
Proof.
  unfold below. rewrite Forall_forall. intros H Hin.
  specialize (H c Hin). lia.
Qed.

Lemma keys_filter (p : Z * V -> bool) m h :
  In h (keys (filter p m)) -> In h (keys m).
Proof.
  unfold keys. rewrite !in_map_iff. intros [e [<- He]].
  apply filter_In in He. exists e. tauto.
Qed.

Lemma wf_filter (p : Z * V -> bool) m : wf m -> wf (filter p m).
Proof.
  unfold wf, keys. induction m as [|e m IH]; simpl; [tauto|].
  intros Hnd. inversion Hnd as [|? ? Hnotin Hnd']; subst.
  destruct (p e); simpl; [|now apply IH].
  constructor; [|now apply IH].
  intros Hin. apply Hnotin. exact (keys_filter p m _ Hin).
Qed.

Lemma below_filter (p : Z * V -> bool) c m : below c m -> below c (filter p m).
Proof.
  unfold below. rewrite !Forall_forall. intros H h Hh.
  apply H. exact (keys_filter p m h Hh).
Qed.

Lemma remove_absent k m : ~ In k (keys m) -> remove k m = m.
Proof.
  unfold remove, keys. induction m as [|[k' v'] m IH]; simpl; [reflexivity|].
  intros H. destruct (Z.eqb_spec k' k) as [->|Hne]; simpl.
  - exfalso. apply H. now left.
  - f_equal. apply IH. tauto.
Qed.

Lemma get_remove_eq k m : get k (remove k m) = None.
Proof.
  apply get_None. unfold remove, keys. rewrite in_map_iff.
  intros [e [He Hin]]. apply filter_In in Hin. destruct Hin as [_ Hp].
  rewrite He, Z.eqb_refl in Hp. discriminate.
Qed.

Lemma get_remove_ne k k' m : k <> k' -> get k' (remove k m) = get k' m.
Proof.
  intros Hne. unfold remove. induction m as [|[k0 v0] m IH]; simpl; [reflexivity|].
  destruct (Z.eqb_spec k0 k) as [->|Hne0]; simpl.
  - destruct (Z.eqb_spec k k'); [contradiction | exact IH].
  - now rewrite IH.
Qed.
End WithValue.
End JsMapFacts.

(** ** The deleting loop *)

Section DeleteWhere.
Context {V : Type}.
Variable test : V -> bool.
Implicit Types (m acc : JsMap.t V).

Lemma filter_twice (p q : Z * V -> bool) (l : list (Z * V)) :
  filter p (filter q l) = filter (fun x => q x && p x) l.
Proof.
  induction l as [|x l IH]; simpl; [reflexivity|].
  destruct (q x); simpl; [|exact IH].
  destruct (p x); now rewrite IH.
Qed.

Lemma filter_all (l : list (Z * V)) : filter (fun _ => true) l = l.
Proof. induction l as [|x l IH]; simpl; congruence. Qed.

(** An entry of [acc] survives the loop over [l] unless [l] holds an entry
    with the same key whose value passes the test. *)
Lemma loop_is_filter (l : list (Z * V)) acc :
  fold_left
    (fun a e => if test (snd e) then snd (JsMap.delete (fst e) a) else a)
    l acc
  = filter
      (fun x => negb (existsb (fun e => test (snd e) && (fst x =? fst e)) l))
      acc.
Proof.
  revert acc. induction l as [|e l IH]; intros acc; simpl.
  - now rewrite filter_all.
  - rewrite IH. destruct (test (snd e)); simpl.
    + unfold JsMap.remove. rewrite filter_twice. apply filter_ext.
      intros x. now rewrite negb_orb.
    + reflexivity.
Qed.

Lemma delete_where_In m e : In e (delete_where test m) -> In e m.
Proof.
  unfold delete_where, JsMap.entries. rewrite loop_is_filter.
  intros H. now apply filter_In in H.
Qed.

Lemma delete_where_clears m e :
  In e (delete_where test m) -> test (snd e) = false.
Proof.
  unfold delete_where, JsMap.entries. rewrite loop_is_filter.
  intros H. apply filter_In in H. destruct H as [Hin Hp].
  destruct (test (snd e)) eqn:Et; [|reflexivity].
  apply negb_true_iff in Hp.
  assert (Hex : existsb (fun e0 => test (snd e0) && (fst e =? fst e0)) m = true).
  { apply existsb_exists. exists e. now rewrite Et, Z.eqb_refl. }
  congruence.
Qed.

Lemma delete_where_wf m :
  JsMap.wf m ->
  delete_where test m = filter (fun e => negb (test (snd e))) m.
Proof.
  intros Hwf. unfold delete_where, JsMap.entries. rewrite loop_is_filter.
  apply filter_ext_in. intros [k v] Hin. f_equal. simpl.
  destruct (test v) eqn:Et.
  - apply existsb_exists. exists (k, v). simpl. now rewrite Et, Z.eqb_refl.
  - apply not_true_is_false. intros Hex.
    apply existsb_exists in Hex. destruct Hex as [[k' v'] [Hin' Hb]].
    simpl in Hb. apply andb_true_iff in Hb. destruct Hb as [Ht Hk].
    apply Z.eqb_eq in Hk. subst k'.
    pose proof (JsMapFacts.In_get _ _ _ Hwf Hin) as G1.
    pose proof (JsMapFacts.In_get _ _ _ Hwf Hin') as G2.
    congruence.
Qed.
End DeleteWhere.

(** ** Deleting a board *)

Lemma filter_nothing {A : Type} (p : A -> bool) (l : list A) :
  Forall (fun x => p x = false) l -> filter p l = [].
Proof.
  induction 1 as [|x l Hx _ IH]; simpl; [reflexivity|].
  now rewrite Hx.
Qed.

Lemma store_eta (s : MemStorage) :
  mkStore (users s) (boards s) (boardMembers s) (todos s)
          (currentUserId s) (currentBoardId s)
          (currentBoardMemberId s) (currentTodoId s) = s.
Proof. now destruct s. Qed.

Lemma deleteBoard_absent (id : Z) (s : MemStorage) :
  JsMap.get id (boards s) = None -> deleteBoard id s = (false, s).
Proof.
  intros Hget. unfold deleteBoard, JsMap.delete, JsMap.has. rewrite Hget.
  rewrite JsMapFacts.remove_absent by now apply JsMapFacts.get_None.
  unfold set_boards. now rewrite store_eta.
Qed.

Lemma deleteBoard_present (id : Z) (s : MemStorage) (b : Board.t) :
  JsMap.get id (boards s) = Some b ->
  deleteBoard id s =
    (true,
     mkStore (users s) (JsMap.remove id (boards s))
             (delete_where (member_on id) (boardMembers s))
             (delete_where (todo_on id) (todos s))
             (currentUserId s) (currentBoardId s)
             (currentBoardMemberId s) (currentTodoId s)).
Proof.
  intros Hget. unfold deleteBoard, JsMap.delete, JsMap.has. now rewrite Hget.
Qed.

Lemma values_cleared {V : Type} (test : V -> bool) (m : JsMap.t V) :
  Forall (fun v => test v = false) (JsMap.values (delete_where test m)).
Proof.
  apply Forall_forall. intros v Hv. unfold JsMap.values in Hv.
  apply in_map_iff in Hv. destruct Hv as [e [<- He]].
  exact (delete_where_clears test m e He).
Qed.

(** C1. [deleteBoard] returns [false] and leaves the store alone when the
    board is absent.  When the board is present it returns [true], and in the
    store it leaves no membership and no todo carries the board's handle, so
    the membership list and the todo list of the board are empty and the
    board itself can no longer be read. *)
Theorem deleteBoard_cascade (id : Z) (s : MemStorage) :
  match JsMap.get id (boards s) with
  | None => deleteBoard id s = (false, s)
  | Some _ =>
      let s' := snd (deleteBoard id s) in
      fst (deleteBoard id s) = true
      /\ Forall (fun m => BoardMember.boardId m <> id)
                (JsMap.values (boardMembers s'))
      /\ Forall (fun t => Todo.boardId t <> id) (JsMap.values (todos s'))
      /\ getBoardMembers id s' = []
      /\ getTodos id s' = []
      /\ getBoard id s' = None
  end.
Proof.
  destruct (JsMap.get id (boards s)) as [b|] eqn:Hget.
  - rewrite (deleteBoard_present id s b Hget). cbn [fst snd].
    pose proof (values_cleared (member_on id) (boardMembers s)) as Hm.
    pose proof (values_cleared (todo_on id) (todos s)) as Ht.
    repeat split.
    + cbn [boardMembers]. eapply Forall_impl; [|exact Hm].
      intros m Hf. unfold member_on in Hf. now apply Z.eqb_neq.
    + cbn [todos]. eapply Forall_impl; [|exact Ht].
      intros t Hf. unfold todo_on in Hf. now apply Z.eqb_neq.
    + unfold getBoardMembers. cbn [boardMembers]. now apply filter_nothing.
    + unfold getTodos. cbn [todos]. now rewrite filter_nothing.
    + unfold getBoard. cbn [boards]. apply JsMapFacts.get_remove_eq.
  - now apply deleteBoard_absent.
Qed.

Lemma filter_values {V : Type} (p : V -> bool) (m : JsMap.t V) :
  filter p (JsMap.values m) = JsMap.values (filter (fun e => p (snd e)) m).
Proof.
  unfold JsMap.values. induction m as [|e m IH]; simpl; [reflexivity|].
  destruct (p (snd e)); simpl; now rewrite IH.
Qed.

Lemma filter_other_board {V : Type} (boardOf : V -> Z) (id b : Z)
  (m : JsMap.t V) :
  b <> id ->
  filter (fun v => boardOf v =? b)
         (JsMap.values (filter (fun e => negb (boardOf (snd e) =? id)) m))
  = filter (fun v => boardOf v =? b) (JsMap.values m).
Proof.
  intros Hne. rewrite !filter_values. f_equal. rewrite filter_twice.
  apply filter_ext. intros e.
  destruct (Z.eqb_spec (boardOf (snd e)) b) as [->|]; simpl.
  - destruct (Z.eqb_spec b id); [contradiction | reflexivity].
  - apply andb_false_r.
Qed.

(** C10. [deleteBoard] leaves the accounts and the four counters as they
    were; the boards stored under other handles, and the memberships and
    todos that name another board, are the same entries in the same order
    before and after, so every read about another board gives what it gave
    before. *)
Theorem deleteBoard_frame (id : Z) (s : MemStorage)
  (Hmembers : JsMap.wf (boardMembers s)) (Htodos : JsMap.wf (todos s)) :
  let s' := snd (deleteBoard id s) in
  users s' = users s
  /\ (currentUserId s' = currentUserId s
      /\ currentBoardId s' = currentBoardId s
      /\ currentBoardMemberId s' = currentBoardMemberId s
      /\ currentTodoId s' = currentTodoId s)
  /\ filter (fun e => negb (fst e =? id)) (JsMap.entries (boards s'))
     = filter (fun e => negb (fst e =? id)) (JsMap.entries (boards s))
  /\ filter (fun e => negb (member_on id (snd e))) (JsMap.entries (boardMembers s'))
     = filter (fun e => negb (member_on id (snd e))) (JsMap.entries (boardMembers s))
  /\ filter (fun e => negb (todo_on id (snd e))) (JsMap.entries (todos s'))
     = filter (fun e => negb (todo_on id (snd e))) (JsMap.entries (todos s))
  /\ (forall b, b <> id ->
        getBoard b s' = getBoard b s
        /\ getBoardMembers b s' = getBoardMembers b s
        /\ getTodos b s' = getTodos b s).
Proof.
  destruct (JsMap.get id (boards s)) as [board|] eqn:Hget.
  - rewrite (deleteBoard_present id s board Hget). cbn [snd].
    cbn [users boards boardMembers todos currentUserId currentBoardId
         currentBoardMemberId currentTodoId].
    rewrite (delete_where_wf _ _ Hmembers), (delete_where_wf _ _ Htodos).
    unfold JsMap.entries, JsMap.remove.
    repeat split.
    + rewrite filter_twice. apply filter_ext. intros e. apply andb_diag.
    + rewrite filter_twice. apply filter_ext. intros e. apply andb_diag.
    + rewrite filter_twice. apply filter_ext. intros e. apply andb_diag.
    + unfold getBoard. cbn [boards]. now apply JsMapFacts.get_remove_ne.
    + unfold getBoardMembers. cbn [boardMembers].
      now apply (filter_other_board BoardMember.boardId).
    + unfold getTodos. cbn [todos users]. f_equal.
      now apply (filter_other_board Todo.boardId).
  - rewrite (deleteBoard_absent id s Hget). cbn [snd]. intuition.
Qed.

Lemma deleteBoard_frame_witness :
  let s' := snd (deleteBoard 1 sample) in
  users s' = users sample
  /\ (currentUserId s' = currentUserId sample
      /\ currentBoardId s' = currentBoardId sample
      /\ currentBoardMemberId s' = currentBoardMemberId sample
      /\ currentTodoId s' = currentTodoId sample)
  /\ filter (fun e => negb (fst e =? 1)) (JsMap.entries (boards s'))
     = filter (fun e => negb (fst e =? 1)) (JsMap.entries (boards sample))
  /\ filter (fun e => negb (member_on 1 (snd e))) (JsMap.entries (boardMembers s'))
     = filter (fun e => negb (member_on 1 (snd e))) (JsMap.entries (boardMembers sample))
  /\ filter (fun e => negb (todo_on 1 (snd e))) (JsMap.entries (todos s'))
     = filter (fun e => negb (todo_on 1 (snd e))) (JsMap.entries (todos sample))
  /\ (forall b, b <> 1 ->
        getBoard b s' = getBoard b sample
        /\ getBoardMembers b s' = getBoardMembers b sample
        /\ getTodos b s' = getTodos b sample).
Proof.
  apply (deleteBoard_frame 1 sample).
  - unfold JsMap.wf. vm_compute. repeat constructor; simpl; intuition lia.
  - unfold JsMap.wf. vm_compute. repeat constructor; simpl; intuition lia.
Defined.

(** ** What every reachable store satisfies *)

Lemma distinct_images_kept {X Y : Type} (image : X -> Y) (keep : X -> bool)
  (xs : list X) (Hdistinct : NoDup (map image xs)) :
  NoDup (map image (filter keep xs)).
Proof.
  induction xs as [|x xs IH]; simpl in *; [constructor|].
  inversion Hdistinct as [|? ? Hnotin Hrest]; subst.
  destruct (keep x); simpl; [|now apply IH].
  constructor; [|now apply IH].
  rewrite in_map_iff. intros [y [Hy Hin]]. apply filter_In in Hin.
  apply Hnotin. rewrite in_map_iff. exists y. tauto.
Qed.

Lemma pairs_filter (p : Z * BoardMember.t -> bool) (m : JsMap.t BoardMember.t) :
  NoDup (map pair_of (JsMap.values m)) ->
  NoDup (map pair_of (JsMap.values (filter p m))).
Proof.
  unfold JsMap.values. rewrite !map_map. apply distinct_images_kept.
Qed.

Lemma same_pair_spec (b u : Z) (member : BoardMember.t) :
  same_pair b u member = true <-> pair_of member = (b, u).
Proof.
  unfold same_pair, pair_of. rewrite andb_true_iff, !Z.eqb_eq.
  split; [intros [-> ->]; reflexivity | intros [= -> ->]; tauto].
Qed.

Lemma no_pair_found (b u : Z) (l : list BoardMember.t) :
  find (same_pair b u) l = None -> ~ In (b, u) (map pair_of l).
Proof.
  intros Hfind Hin. apply in_map_iff in Hin. destruct Hin as [x [Hx Hin]].
  pose proof (find_none _ _ Hfind x Hin) as Hf.
  apply same_pair_spec in Hx. congruence.
Qed.

Lemma pairs_set_same (k : Z) (v v' : BoardMember.t) (m : JsMap.t BoardMember.t) :
  JsMap.wf m -> In (k, v) m -> pair_of v' = pair_of v ->
  map pair_of (JsMap.values (JsMap.set k v' m)) = map pair_of (JsMap.values m).
Proof.
  unfold JsMap.wf, JsMap.keys, JsMap.values.
  induction m as [|[k0 v0] m IH]; simpl; [tauto|].
  intros Hnd Hin Hpair. inversion Hnd as [|? ? Hnotin Hnd']; subst.
  destruct (Z.eqb_spec k0 k) as [->|Hne]; simpl.
  - destruct Hin as [Heq|Hin].
    + injection Heq as ->. now rewrite Hpair.
    + exfalso. apply Hnotin. now apply (in_map fst) in Hin.
  - destruct Hin as [Heq|Hin]; [congruence|].
    f_equal. now apply IH.
Qed.

Lemma find_member_entry_In (b u : Z) (s : MemStorage) (k : Z) (m : BoardMember.t) :
  find_member_entry b u s = Some (k, m) ->
  In (k, m) (boardMembers s) /\ pair_of m = (b, u).
Proof.
  unfold find_member_entry, JsMap.entries. intros H.
  apply find_some in H. simpl in H. now rewrite same_pair_spec in H.
Qed.

Lemma entry_key {V : Type} (k : Z) (v : V) (m : JsMap.t V) :
  In (k, v) m -> In k (JsMap.keys m).
Proof. intros H. now apply (in_map fst) in H. Qed.

Lemma below_key {V : Type} (c k : Z) (m : JsMap.t V) :
  JsMap.below c m -> In k (JsMap.keys m) -> k < c.
Proof. unfold JsMap.below. rewrite Forall_forall. auto. Qed.

Ltac inv_fields :=
  constructor;
  cbn [users boards boardMembers todos currentUserId currentBoardId
       currentBoardMemberId currentTodoId set_users set_boards
       set_boardMembers set_todos];
  try assumption.

Lemma init_inv : store_inv init.
Proof.
  constructor; simpl; try constructor.
Qed.

Lemma createUser_inv (u : InsertUser.t) (s : MemStorage) :
  store_inv s -> store_inv (snd (createUser u s)).
Proof.
  intros []. unfold createUser. cbn [snd]. inv_fields.
  - now apply JsMapFacts.wf_set.
  - apply JsMapFacts.below_set; [|lia].
    eapply JsMapFacts.below_mono; [eassumption | lia].
Qed.

Lemma createTodo_inv (t : InsertTodo.t) (now : Z) (s : MemStorage) :
  store_inv s -> store_inv (snd (createTodo t now s)).
Proof.
  intros []. unfold createTodo. cbn [snd]. inv_fields.
  - now apply JsMapFacts.wf_set.
  - apply JsMapFacts.below_set; [|lia].
    eapply JsMapFacts.below_mono; [eassumption | lia].
Qed.

Lemma addBoardMember_inv (im : InsertBoardMember.t) (s : MemStorage) :
  store_inv s -> store_inv (snd (addBoardMember im s)).
Proof.
  intros Hinv. unfold addBoardMember.
  destruct (find _ _) as [existing|] eqn:Hfind; cbn [snd]; [assumption|].
  destruct Hinv. inv_fields.
  - now apply JsMapFacts.wf_set.
  - apply JsMapFacts.below_set; [|lia].
    eapply JsMapFacts.below_mono; [eassumption | lia].
  - rewrite JsMapFacts.set_fresh by now apply JsMapFacts.below_fresh.
    unfold JsMap.values. rewrite !map_app. simpl.
    apply NoDup_app; [assumption | repeat constructor; simpl; tauto |].
    intros x Hx [<-|[]]. revert Hx. now apply no_pair_found.
Qed.

Lemma removeBoardMember_inv (b u : Z) (s : MemStorage) :
  store_inv s -> store_inv (snd (removeBoardMember b u s)).
Proof.
  intros Hinv. unfold removeBoardMember.
  destruct (find_member_entry b u s) as [[k m]|]; cbn [snd]; [|assumption].
  destruct Hinv. unfold JsMap.delete, JsMap.remove. inv_fields.
  - now apply JsMapFacts.wf_filter.
  - now apply JsMapFacts.below_filter.
  - now apply pairs_filter.
Qed.

Lemma updateBoardMemberRole_inv (b u : Z) (role : string) (s : MemStorage) :
  store_inv s -> store_inv (snd (updateBoardMemberRole b u role s)).
Proof.
  intros Hinv. unfold updateBoardMemberRole.
  destruct (find_member_entry b u s) as [[k m]|] eqn:Hfind; cbn [snd];
    [|assumption].
  apply find_member_entry_In in Hfind. destruct Hfind as [Hin _].
  destruct Hinv. inv_fields.
  - now apply JsMapFacts.wf_set.
  - apply JsMapFacts.below_set; [assumption|].
    eapply below_key; [eassumption | eapply entry_key; eassumption].
  - rewrite (pairs_set_same k m); auto.
Qed.

Lemma createBoard_inv (b : InsertBoard.t) (now : Z) (s : MemStorage) :
  store_inv s -> store_inv (snd (createBoard b now s)).
Proof.
  intros Hinv. unfold createBoard.
  match goal with
  | |- context [addBoardMember ?im ?s1] =>
      pose proof (addBoardMember_inv im s1) as Hadd;
      destruct (addBoardMember im s1) as [r s2]
  end.
  cbn [snd] in *. apply Hadd. destruct Hinv. inv_fields.
  - now apply JsMapFacts.wf_set.
  - apply JsMapFacts.below_set; [|lia].
    eapply JsMapFacts.below_mono; [eassumption | lia].
Qed.

Lemma updateBoard_inv (id : Z) (u : PartialBoard.t) (s : MemStorage) :
  store_inv s -> store_inv (snd (updateBoard id u s)).
Proof.
  intros Hinv. unfold updateBoard.
  destruct (JsMap.get id (boards s)) as [board|] eqn:Hget; cbn [snd];
    [|assumption].
  apply JsMapFacts.get_In in Hget. destruct Hinv. inv_fields.
  - now apply JsMapFacts.wf_set.
  - apply JsMapFacts.below_set; [assumption|].
    eapply below_key; [eassumption | eapply entry_key; eassumption].
Qed.

Lemma updateTodo_inv (id : Z) (u : PartialTodo.t) (now : Z) (s : MemStorage) :
  store_inv s -> store_inv (snd (updateTodo id u now s)).
Proof.
  intros Hinv. unfold updateTodo.
  destruct (JsMap.get id (todos s)) as [todo|] eqn:Hget; cbn [snd];
    [|assumption].
  apply JsMapFacts.get_In in Hget. destruct Hinv. inv_fields.
  - now apply JsMapFacts.wf_set.
  - apply JsMapFacts.below_set; [assumption|].
    eapply below_key; [eassumption | eapply entry_key; eassumption].
Qed.

Lemma deleteTodo_inv (id : Z) (s : MemStorage) :
  store_inv s -> store_inv (snd (deleteTodo id s)).
Proof.
  intros []. unfold deleteTodo, JsMap.delete, JsMap.remove. cbn [snd].
  inv_fields.
  - now apply JsMapFacts.wf_filter.
  - now apply JsMapFacts.below_filter.
Qed.

Lemma deleteBoard_inv (id : Z) (s : MemStorage) :
  store_inv s -> store_inv (snd (deleteBoard id s)).
Proof.
  intros Hinv.
  destruct (JsMap.get id (boards s)) as [board|] eqn:Hget.
  - rewrite (deleteBoard_present id s board Hget). cbn [snd].
    destruct Hinv.
    rewrite (delete_where_wf _ _ inv_members_wf0).
    rewrite (delete_where_wf _ _ inv_todos_wf0).
    unfold JsMap.remove. inv_fields;
      auto using JsMapFacts.wf_filter, JsMapFacts.below_filter, pairs_filter.
  - now rewrite (deleteBoard_absent id s Hget).
Qed.

Lemma step_inv (op : Op) (s : MemStorage) :
  store_inv s -> store_inv (step op s).
Proof.
  intros Hinv. unfold step.
  destruct op; cbn [exec snd]; try assumption.
  - pose proof (createUser_inv user s Hinv).
    now destruct (createUser user s).
  - pose proof (createBoard_inv board now s Hinv).
    now destruct (createBoard board now s).
  - pose proof (updateBoard_inv id updates s Hinv).
    now destruct (updateBoard id updates s).
  - pose proof (deleteBoard_inv id s Hinv).
    now destruct (deleteBoard id s).
  - pose proof (addBoardMember_inv member s Hinv).
    now destruct (addBoardMember member s).
  - pose proof (removeBoardMember_inv boardId userId s Hinv).
    now destruct (removeBoardMember boardId userId s).
  - pose proof (updateBoardMemberRole_inv boardId userId role s Hinv).
    now destruct (updateBoardMemberRole boardId userId role s).
  - pose proof (createTodo_inv todo now s Hinv).
    now destruct (createTodo todo now s).
  - pose proof (updateTodo_inv id updates now s Hinv).
    now destruct (updateTodo id updates now s).
  - pose proof (deleteTodo_inv id s Hinv).
    now destruct (deleteTodo id s).
Qed.

Lemma reachable_inv (s : MemStorage) : reachable s -> store_inv s.
Proof.
  induction 1 as [|op s _ IH]; [exact init_inv | now apply step_inv].
Qed.

Lemma run_inv (ops : list Op) (s : MemStorage) :
  store_inv s -> store_inv (run ops s).
Proof.
  revert s. unfold run. induction ops as [|op ops IH]; intros s Hinv; simpl;
    [assumption|].
  apply IH. now apply step_inv.
Qed.

Lemma reachable_run (ops : list Op) (s : MemStorage) :
  reachable s -> reachable (run ops s).
Proof.
  revert s. unfold run. induction ops as [|op ops IH]; intros s Hr; simpl;
    [assumption|].
  apply IH. now constructor.
Qed.

(** ** Memberships *)

Lemma find_none_filter {A : Type} (p : A -> bool) (l : list A) :
  find p l = None -> filter p l = [].
Proof.
  induction l as [|x l IH]; simpl; [reflexivity|].
  destruct (p x); [discriminate | exact IH].
Qed.

Lemma find_last {A : Type} (p : A -> bool) (l : list A) (x : A) :
  find p l = None -> p x = true -> find p (l ++ [x]) = Some x.
Proof.
  induction l as [|y l IH]; simpl; intros Hf Hp.
  - now rewrite Hp.
  - destruct (p y); [discriminate | now apply IH].
Qed.

Lemma unique_member (b u : Z) (l : list BoardMember.t) (x : BoardMember.t) :
  NoDup (map pair_of l) -> find (same_pair b u) l = Some x ->
  filter (same_pair b u) l = [x].
Proof.
  induction l as [|y l IH]; simpl; [discriminate|].
  intros Hnd Hfind. inversion Hnd as [|? ? Hnotin Hnd']; subst.
  destruct (same_pair b u y) eqn:Hy.
  - injection Hfind as ->. f_equal. apply filter_nothing, Forall_forall.
    intros z Hz. apply not_true_is_false. intros Hsp.
    apply same_pair_spec in Hy, Hsp. apply Hnotin.
    rewrite Hy, <- Hsp. now apply in_map.
  - now apply IH.
Qed.


Lemma addBoardMember_existing (im : InsertBoardMember.t) (s : MemStorage)
  (x : BoardMember.t) :
  find (same_pair (InsertBoardMember.boardId im) (InsertBoardMember.userId im))
       (JsMap.values (boardMembers s)) = Some x ->
  addBoardMember im s = (x, s).
Proof. intros H. unfold addBoardMember. now rewrite H. Qed.

Lemma addBoardMember_new (im : InsertBoardMember.t) (s : MemStorage) :
  store_inv s ->
  find (same_pair (InsertBoardMember.boardId im) (InsertBoardMember.userId im))
       (JsMap.values (boardMembers s)) = None ->
  let member :=
    BoardMember.mk (currentBoardMemberId s)
      (InsertBoardMember.boardId im) (InsertBoardMember.userId im)
      (string_or (InsertBoardMember.role im) "editor") in
  addBoardMember im s =
    (member,
     set_boardMembers (boardMembers s ++ [(currentBoardMemberId s, member)])
                      (currentBoardMemberId s + 1) s).
Proof.
  intros Hinv H. unfold addBoardMember. rewrite H. cbv zeta.
  rewrite JsMapFacts.set_fresh; [reflexivity|].
  apply JsMapFacts.below_fresh. now destruct Hinv.
Qed.



(** ** Handles *)

Lemma grows_refl (k : Kind) (s : MemStorage) : grows k s s.
Proof. split; [lia | auto]. Qed.

Lemma keys_delete_where {V : Type} (test : V -> bool) (m : JsMap.t V) (h : Z) :
  In h (JsMap.keys (delete_where test m)) -> In h (JsMap.keys m).
Proof.
  unfold JsMap.keys. rewrite !in_map_iff. intros [e [He Hin]].
  exists e. split; [assumption | now apply delete_where_In in Hin].
Qed.

Ltac grows_cases k :=
  destruct k; split;
  cbn [counter handles users boards boardMembers todos currentUserId
       currentBoardId currentBoardMemberId currentTodoId set_users set_boards
       set_boardMembers set_todos snd];
  try lia; try (intros h Hh; left; exact Hh).

Lemma createUser_grows (k : Kind) (u : InsertUser.t) (s : MemStorage) :
  grows k s (snd (createUser u s)).
Proof.
  unfold createUser. grows_cases k.
  intros h Hh. apply JsMapFacts.keys_set in Hh.
  destruct Hh as [->|Hh]; [right; split; [reflexivity | lia] | now left].
Qed.

Lemma createTodo_grows (k : Kind) (t : InsertTodo.t) (now : Z) (s : MemStorage) :
  grows k s (snd (createTodo t now s)).
Proof.
  unfold createTodo. grows_cases k.
  intros h Hh. apply JsMapFacts.keys_set in Hh.
  destruct Hh as [->|Hh]; [right; split; [reflexivity | lia] | now left].
Qed.

Lemma addBoardMember_grows (k : Kind) (im : InsertBoardMember.t) (s : MemStorage) :
  grows k s (snd (addBoardMember im s)).
Proof.
  unfold addBoardMember. destruct (find _ _); [apply grows_refl|].
  grows_cases k.
  intros h Hh. apply JsMapFacts.keys_set in Hh.
  destruct Hh as [->|Hh]; [right; split; [reflexivity | lia] | now left].
Qed.

Lemma addBoardMember_frame (im : InsertBoardMember.t) (s : MemStorage) :
  let s' := snd (addBoardMember im s) in
  users s' = users s /\ boards s' = boards s /\ todos s' = todos s
  /\ currentUserId s' = currentUserId s
  /\ currentBoardId s' = currentBoardId s
  /\ currentTodoId s' = currentTodoId s.
Proof.
  unfold addBoardMember. destruct (find _ _); cbn; repeat split.
Qed.

Lemma createBoard_grows (k : Kind) (b : InsertBoard.t) (now : Z) (s : MemStorage) :
  grows k s (snd (createBoard b now s)).
Proof.
  unfold createBoard.
  match goal with
  | |- context [addBoardMember ?im ?s1] =>
      pose proof (addBoardMember_grows KBoardMember im s1) as [Hc Hh];
      pose proof (addBoardMember_frame im s1) as (Hu & Hb & Ht & Hcu & Hcb & Hct);
      destruct (addBoardMember im s1) as [r s2]
  end.
  cbn [snd] in *. destruct k; split;
    cbn [counter handles users boards boardMembers todos currentUserId
         currentBoardId currentBoardMemberId currentTodoId set_boards] in *;
    try assumption; try lia.
  - rewrite Hu. auto.
  - rewrite Hb, Hcb. intros h Hin. apply JsMapFacts.keys_set in Hin.
    destruct Hin as [->|Hin]; [right; split; [reflexivity | lia] | now left].
  - rewrite Ht. auto.
Qed.

Lemma updateBoard_grows (k : Kind) (id : Z) (u : PartialBoard.t) (s : MemStorage) :
  grows k s (snd (updateBoard id u s)).
Proof.
  unfold updateBoard.
  destruct (JsMap.get id (boards s)) eqn:Hget; [|apply grows_refl].
  apply JsMapFacts.get_In, entry_key in Hget. grows_cases k.
  intros h Hh. left. now rewrite JsMapFacts.set_present in Hh.
Qed.

Lemma updateTodo_grows (k : Kind) (id : Z) (u : PartialTodo.t) (now : Z)
  (s : MemStorage) : grows k s (snd (updateTodo id u now s)).
Proof.
  unfold updateTodo.
  destruct (JsMap.get id (todos s)) eqn:Hget; [|apply grows_refl].
  apply JsMapFacts.get_In, entry_key in Hget. grows_cases k.
  intros h Hh. left. now rewrite JsMapFacts.set_present in Hh.
Qed.

Lemma updateBoardMemberRole_grows (k : Kind) (b u : Z) (role : string)
  (s : MemStorage) : grows k s (snd (updateBoardMemberRole b u role s)).
Proof.
  unfold updateBoardMemberRole.
  destruct (find_member_entry b u s) as [[key m]|] eqn:Hfind;
    [|apply grows_refl].
  apply find_member_entry_In in Hfind. destruct Hfind as [Hin _].
  apply entry_key in Hin. grows_cases k.
  intros h Hh. left. now rewrite JsMapFacts.set_present in Hh.
Qed.

Lemma removeBoardMember_grows (k : Kind) (b u : Z) (s : MemStorage) :
  grows k s (snd (removeBoardMember b u s)).
Proof.
  unfold removeBoardMember.
  destruct (find_member_entry b u s) as [[key m]|]; [|apply grows_refl].
  unfold JsMap.delete, JsMap.remove. grows_cases k.
  intros h Hh. left. now apply JsMapFacts.keys_filter in Hh.
Qed.

Lemma deleteTodo_grows (k : Kind) (id : Z) (s : MemStorage) :
  grows k s (snd (deleteTodo id s)).
Proof.
  unfold deleteTodo, JsMap.delete, JsMap.remove. grows_cases k.
  intros h Hh. left. now apply JsMapFacts.keys_filter in Hh.
Qed.

Lemma deleteBoard_grows (k : Kind) (id : Z) (s : MemStorage) :
  grows k s (snd (deleteBoard id s)).
Proof.
  destruct (JsMap.get id (boards s)) as [board|] eqn:Hget.
  - rewrite (deleteBoard_present id s board Hget). unfold JsMap.remove.
    grows_cases k; intros h Hh; left.
    + now apply JsMapFacts.keys_filter in Hh.
    + now apply keys_delete_where in Hh.
    + now apply keys_delete_where in Hh.
  - rewrite (deleteBoard_absent id s Hget). apply grows_refl.
Qed.

Lemma step_grows (k : Kind) (op : Op) (s : MemStorage) : grows k s (step op s).
Proof.
  unfold step. destruct op; cbn [exec snd]; try apply grows_refl.
  - pose proof (createUser_grows k user s).
    now destruct (createUser user s).
  - pose proof (createBoard_grows k board now s).
    now destruct (createBoard board now s).
  - pose proof (updateBoard_grows k id updates s).
    now destruct (updateBoard id updates s).
  - pose proof (deleteBoard_grows k id s).
    now destruct (deleteBoard id s).
  - pose proof (addBoardMember_grows k member s).
    now destruct (addBoardMember member s).
  - pose proof (removeBoardMember_grows k boardId userId s).
    now destruct (removeBoardMember boardId userId s).
  - pose proof (updateBoardMemberRole_grows k boardId userId role s).
    now destruct (updateBoardMemberRole boardId userId role s).
  - pose proof (createTodo_grows k todo now s).
    now destruct (createTodo todo now s).
  - pose proof (updateTodo_grows k id updates now s).
    now destruct (updateTodo id updates now s).
  - pose proof (deleteTodo_grows k id s).
    now destruct (deleteTodo id s).
Qed.

Lemma run_counter_mono (k : Kind) (ops : list Op) (s : MemStorage) :
  counter k s <= counter k (run ops s).
Proof.
  revert s. unfold run. induction ops as [|op ops IH]; intros s; simpl; [lia|].
  pose proof (step_grows k op s) as [Hc _].
  specialize (IH (step op s)). lia.
Qed.

Lemma assigned_is_counter (k : Kind) (h : Z) (op : Op) (s : MemStorage) :
  assigned k h s (step op s) ->
  h = counter k s /\ counter k (step op s) = h + 1.
Proof.
  intros [Hold Hnew]. pose proof (step_grows k op s) as [_ Hh].
  destruct (Hh h Hnew); [contradiction | assumption].
Qed.

Lemma filter_none_find {A : Type} (p : A -> bool) (l : list A) :
  filter p l = [] -> find p l = None.
Proof.
  induction l as [|x l IH]; simpl; [reflexivity|].
  destruct (p x); [discriminate | exact IH].
Qed.

(** In a reachable store each creating call does put a handle into use: the
    one of the entity it returns. *)
Lemma creating_calls_assign (s : MemStorage) (Hreach : reachable s) :
  (forall d,
     assigned KUser (User.id (fst (createUser d s))) s (step (OpCreateUser d) s))
  /\ (forall d now,
        assigned KBoard (Board.id (fst (createBoard d now s))) s
                 (step (OpCreateBoard d now) s))
  /\ (forall d now,
        assigned KTodo (Todo.id (fst (createTodo d now s))) s
                 (step (OpCreateTodo d now) s))
  /\ (forall d,
        memberships (InsertBoardMember.boardId d) (InsertBoardMember.userId d) s
        = [] ->
        assigned KBoardMember (BoardMember.id (fst (addBoardMember d s))) s
                 (step (OpAddBoardMember d) s)).
Proof.
  pose proof (reachable_inv s Hreach) as Hinv. unfold assigned, step.
  repeat split.
  - apply JsMapFacts.below_fresh. now destruct Hinv.
  - cbn. apply JsMapFacts.keys_set. now left.
  - replace (Board.id (fst (createBoard d now s))) with (currentBoardId s)
      by (unfold createBoard; now destruct (addBoardMember _ _)).
    apply JsMapFacts.below_fresh. now destruct Hinv.
  - cbn [exec]. unfold createBoard.
    match goal with
    | |- context [addBoardMember ?im ?s1] =>
        pose proof (addBoardMember_frame im s1) as (_ & Hb & _);
        destruct (addBoardMember im s1) as [r s2]
    end.
    cbn [fst snd handles Board.id] in *. rewrite Hb. cbn [boards set_boards].
    apply JsMapFacts.keys_set. now left.
  - apply JsMapFacts.below_fresh. now destruct Hinv.
  - cbn. apply JsMapFacts.keys_set. now left.
  - unfold memberships in H. apply filter_none_find in H.
    rewrite (addBoardMember_new d s Hinv H). cbn.
    apply JsMapFacts.below_fresh. now destruct Hinv.
  - unfold memberships in H. apply filter_none_find in H. cbn [exec].
    rewrite (addBoardMember_new d s Hinv H). cbn.
    unfold JsMap.keys. rewrite map_app, in_app_iff. right. now left.
Qed.

(** X25. Take any store and any two calls, with any sequence of calls
    (deletions among them) in between.  If the first brings a handle [h1]
    of some kind into use that was not in use, and the second brings a
    handle [h2] of the same kind into use that was not in use, then
    [h1 < h2]. *)
Theorem handles_strictly_increase (k : Kind) (s : MemStorage)
  (op1 op2 : Op) (between : list Op) (h1 h2 : Z)
  (Hfirst : assigned k h1 s (step op1 s))
  (Hsecond : assigned k h2 (run between (step op1 s))
                      (step op2 (run between (step op1 s)))) :
  h1 < h2.
Proof.
  apply assigned_is_counter in Hfirst, Hsecond.
  pose proof (run_counter_mono k between (step op1 s)). lia.
Qed.

Lemma handles_strictly_increase_witness :
  let op1 := OpCreateTodo (InsertTodo.mk 1 "Draft" None None None None None 1) 2000 in
  let between := [OpDeleteTodo 3; OpDeleteBoard 1] in
  let op2 := OpCreateTodo (InsertTodo.mk 2 "Review" None None None None None 2) 2001 in
  assigned KTodo 3 sample (step op1 sample)
  /\ assigned KTodo 4 (run between (step op1 sample))
                     (step op2 (run between (step op1 sample)))
  /\ 3 < 4.
Proof.
  cbv zeta.
  assert (H1 : assigned KTodo 3 sample
                 (step (OpCreateTodo (InsertTodo.mk 1 "Draft" None None None
                                                    None None 1) 2000) sample)).
  { split; vm_compute; intuition discriminate. }
  assert (H2 : assigned KTodo 4
                 (run [OpDeleteTodo 3; OpDeleteBoard 1]
                      (step (OpCreateTodo (InsertTodo.mk 1 "Draft" None None
                                                         None None None 1) 2000)
                            sample))
                 (step (OpCreateTodo (InsertTodo.mk 2 "Review" None None None
                                                    None None 2) 2001)
                       (run [OpDeleteTodo 3; OpDeleteBoard 1]
                            (step (OpCreateTodo (InsertTodo.mk 1 "Draft" None
                                                   None None None None 1) 2000)
                                  sample)))).
  { split; vm_compute; intuition discriminate. }
  exact (conj H1 (conj H2 (handles_strictly_increase KTodo sample _ _ _ 3 4 H1 H2))).
Defined.

Lemma handles_are_below (s : MemStorage) (k : Kind) (h : Z) :
  reachable s -> In h (handles k s) -> h < counter k s.
Proof.
  intros Hreach Hin. pose proof (reachable_inv s Hreach) as Hinv.
  destruct k; cbn in *;
    [ eapply below_key; [exact (inv_users_below s Hinv) | exact Hin]
    | eapply below_key; [exact (inv_boards_below s Hinv) | exact Hin]
    | eapply below_key; [exact (inv_members_below s Hinv) | exact Hin]
    | eapply below_key; [exact (inv_todos_below s Hinv) | exact Hin] ].
Qed.

Lemma createBoard_counter (d : InsertBoard.t) (now : Z) (s : MemStorage) :
  Board.id (fst (createBoard d now s)) = currentBoardId s
  /\ currentBoardId (snd (createBoard d now s)) = currentBoardId s + 1.
Proof.
  unfold createBoard.
  match goal with
  | |- context [addBoardMember ?im ?s1] =>
      pose proof (addBoardMember_frame im s1) as (_ & _ & _ & _ & Hcb & _);
      destruct (addBoardMember im s1) as [r s2]
  end.
  cbn [fst snd] in *. now rewrite Hcb.
Qed.

Lemma addBoardMember_counter (d : InsertBoardMember.t) (s : MemStorage) :
  memberships (InsertBoardMember.boardId d) (InsertBoardMember.userId d) s = [] ->
  BoardMember.id (fst (addBoardMember d s)) = currentBoardMemberId s
  /\ currentBoardMemberId (snd (addBoardMember d s)) = currentBoardMemberId s + 1.
Proof.
  intros Hnone. unfold memberships in Hnone. apply filter_none_find in Hnone.
  unfold addBoardMember. rewrite Hnone. split; reflexivity.
Qed.

Lemma step_is_call (s : MemStorage) :
  (forall d, step (OpCreateUser d) s = snd (createUser d s))
  /\ (forall d now, step (OpCreateBoard d now) s = snd (createBoard d now s))
  /\ (forall d now, step (OpCreateTodo d now) s = snd (createTodo d now s))
  /\ (forall d, step (OpAddBoardMember d) s = snd (addBoardMember d s)).
Proof.
  unfold step. repeat split; intros; cbn [exec];
    match goal with
    | |- snd (let '(_, _) := ?call in _) = _ => now destruct call
    end.
Qed.

(** C4. In a reachable store, take a creating call of any of the four kinds
    ([createUser], [createBoard], [createTodo], and [addBoardMember] for a
    pair without a membership), then any sequence of calls (deletions among
    them), then a second creating call of the same kind.  The handle of the
    entity the first call returns was not in use before that call and is in
    use after it, and it is strictly smaller than the handle of the entity
    the second call returns.  Moreover every handle in use in the store,
    whatever becomes of its entity in the calls that follow, is strictly
    smaller than the handle a later creating call of that kind returns: a
    handle is not given a second time. *)
Theorem created_handles_increase (s : MemStorage) (between : list Op)
  (Hreach : reachable s) :
  (forall d1 d2,
     let r1 := createUser d1 s in
     let r2 := createUser d2 (run between (snd r1)) in
     assigned KUser (User.id (fst r1)) s (snd r1)
     /\ User.id (fst r1) < User.id (fst r2))
  /\ (forall d1 now1 d2 now2,
        let r1 := createBoard d1 now1 s in
        let r2 := createBoard d2 now2 (run between (snd r1)) in
        assigned KBoard (Board.id (fst r1)) s (snd r1)
        /\ Board.id (fst r1) < Board.id (fst r2))
  /\ (forall d1 now1 d2 now2,
        let r1 := createTodo d1 now1 s in
        let r2 := createTodo d2 now2 (run between (snd r1)) in
        assigned KTodo (Todo.id (fst r1)) s (snd r1)
        /\ Todo.id (fst r1) < Todo.id (fst r2))
  /\ (forall d1 d2,
        let r1 := addBoardMember d1 s in
        let r2 := addBoardMember d2 (run between (snd r1)) in
        memberships (InsertBoardMember.boardId d1)
                    (InsertBoardMember.userId d1) s = [] ->
        memberships (InsertBoardMember.boardId d2)
                    (InsertBoardMember.userId d2) (run between (snd r1)) = [] ->
        assigned KBoardMember (BoardMember.id (fst r1)) s (snd r1)
        /\ BoardMember.id (fst r1) < BoardMember.id (fst r2))
  /\ (forall h d,
        In h (handles KUser s) ->
        h < User.id (fst (createUser d (run between s))))
  /\ (forall h d now,
        In h (handles KBoard s) ->
        h < Board.id (fst (createBoard d now (run between s))))
  /\ (forall h d now,
        In h (handles KTodo s) ->
        h < Todo.id (fst (createTodo d now (run between s))))
  /\ (forall h d,
        In h (handles KBoardMember s) ->
        memberships (InsertBoardMember.boardId d)
                    (InsertBoardMember.userId d) (run between s) = [] ->
        h < BoardMember.id (fst (addBoardMember d (run between s)))).
Proof.
  destruct (creating_calls_assign s Hreach) as (Au & Ab & At & Am).
  destruct (step_is_call s) as (Su & Sb & St & Sm).
  split; [|split; [|split; [|split; [|split; [|split; [|split]]]]]]; cbv zeta.
  - intros d1 d2. split; [rewrite <- Su; apply Au|].
    pose proof (run_counter_mono KUser between (snd (createUser d1 s))) as Hm.
    unfold createUser in *. cbn in *. lia.
  - intros d1 now1 d2 now2. split; [rewrite <- Sb; apply Ab|].
    pose proof (run_counter_mono KBoard between (snd (createBoard d1 now1 s)))
      as Hm.
    destruct (createBoard_counter d1 now1 s) as [H1 H1'].
    destruct (createBoard_counter d2 now2
                (run between (snd (createBoard d1 now1 s)))) as [H2 _].
    cbn [counter] in Hm. lia.
  - intros d1 now1 d2 now2. split; [rewrite <- St; apply At|].
    pose proof (run_counter_mono KTodo between (snd (createTodo d1 now1 s)))
      as Hm.
    unfold createTodo in *. cbn in *. lia.
  - intros d1 d2 Hnone1 Hnone2. split; [rewrite <- Sm; now apply Am|].
    pose proof (run_counter_mono KBoardMember between
                  (snd (addBoardMember d1 s))) as Hm.
    destruct (addBoardMember_counter d1 s Hnone1) as [H1 H1'].
    destruct (addBoardMember_counter d2 _ Hnone2) as [H2 _].
    cbn [counter] in Hm. lia.
  - intros h d Hin.
    pose proof (run_counter_mono KUser between s) as Hm.
    pose proof (handles_are_below s KUser h Hreach Hin) as Hh.
    unfold createUser. cbn in *. lia.
  - intros h d now Hin.
    pose proof (run_counter_mono KBoard between s) as Hm.
    pose proof (handles_are_below s KBoard h Hreach Hin) as Hh.
    destruct (createBoard_counter d now (run between s)) as [H2 _].
    cbn [counter] in *. lia.
  - intros h d now Hin.
    pose proof (run_counter_mono KTodo between s) as Hm.
    pose proof (handles_are_below s KTodo h Hreach Hin) as Hh.
    unfold createTodo. cbn in *. lia.
  - intros h d Hin Hnone.
    pose proof (run_counter_mono KBoardMember between s) as Hm.
    pose proof (handles_are_below s KBoardMember h Hreach Hin) as Hh.
    destruct (addBoardMember_counter d _ Hnone) as [H2 _].
    cbn [counter] in *. lia.
Qed.

Lemma created_handles_increase_witness :
  let d1 := InsertTodo.mk 1 "Draft" None None None None None 1 in
  let d2 := InsertTodo.mk 2 "Review" None None None None None 2 in
  let r1 := createTodo d1 2000 sample in
  let r2 := createTodo d2 2001
              (run [OpDeleteTodo 3; OpDeleteBoard 1] (snd r1)) in
  assigned KTodo (Todo.id (fst r1)) sample (snd r1)
  /\ Todo.id (fst r1) < Todo.id (fst r2).
Proof.
  cbv zeta.
  exact (proj1 (proj2 (proj2
           (created_handles_increase sample [OpDeleteTodo 3; OpDeleteBoard 1]
              (reachable_run sample_ops init reach_init))))
           (InsertTodo.mk 1 "Draft" None None None None None 1) 2000
           (InsertTodo.mk 2 "Review" None None None None None 2) 2001).
Defined.

(** ** Creating an account *)

Lemma string_or_null_not_empty (x : option string) :
  string_or_null x <> Some ""%string.
Proof.
  destruct x as [str|]; simpl; [|discriminate].
  unfold truthy_string. destruct (String.eqb_spec str ""); simpl.
  - discriminate.
  - intros [= ->]. contradiction.
Qed.

Lemma string_or_null_kept (x : option string) (str : string) :
  x = Some str -> str <> ""%string -> string_or_null x = Some str.
Proof.
  intros -> Hne. simpl. unfold truthy_string.
  destruct (String.eqb_spec str ""); [contradiction | reflexivity].
Qed.

(** C8. [createUser] gives the new account the next handle, which no stored
    account has, and stores it under that handle without disturbing the
    other accounts.  The login name, credential and phone number are stored
    as given; the display name and the avatar are stored as given when they
    are non-empty strings, are absent when they are unset, and are never the
    empty string. *)
Theorem createUser_stores_input (d : InsertUser.t) (s : MemStorage)
  (Hreach : reachable s) :
  let user := fst (createUser d s) in
  let s' := snd (createUser d s) in
  (User.id user = currentUserId s
   /\ ~ In (User.id user) (handles KUser s)
   /\ currentUserId s' = User.id user + 1)
  /\ (getUser (User.id user) s' = Some user
      /\ forall id, id <> User.id user -> getUser id s' = getUser id s)
  /\ (User.username user = InsertUser.username d
      /\ User.password user = InsertUser.password d
      /\ User.phoneNumber user = InsertUser.phoneNumber d)
  /\ ((InsertUser.displayName d = None -> User.displayName user = None)
      /\ (forall str, InsertUser.displayName d = Some str -> str <> ""%string ->
                      User.displayName user = Some str)
      /\ User.displayName user <> Some ""%string)
  /\ ((InsertUser.photoURL d = None -> User.photoURL user = None)
      /\ (forall str, InsertUser.photoURL d = Some str -> str <> ""%string ->
                      User.photoURL user = Some str)
      /\ User.photoURL user <> Some ""%string).
Proof.
  pose proof (reachable_inv s Hreach) as Hinv.
  unfold createUser, getUser.
  cbn [fst snd users currentUserId set_users handles User.id User.username
       User.password User.phoneNumber User.displayName User.photoURL].
  repeat split.
  - apply JsMapFacts.below_fresh. now destruct Hinv.
  - apply JsMapFacts.get_set_eq.
  - intros id Hne. apply JsMapFacts.get_set_ne. congruence.
  - now intros ->.
  - apply string_or_null_kept.
  - apply string_or_null_not_empty.
  - now intros ->.
  - apply string_or_null_kept.
  - apply string_or_null_not_empty.
Qed.

Lemma createUser_stores_input_witness :
  let d := InsertUser.mk "carol" "h3" "+15550003" (Some ""%string)
                         (Some "carol.png"%string) in
  let user := fst (createUser d sample) in
  User.id user = 3
  /\ getUser 3 (snd (createUser d sample)) = Some user
  /\ User.displayName user = None
  /\ User.photoURL user = Some "carol.png"%string.
Proof.
  cbv zeta.
  pose proof (createUser_stores_input
                (InsertUser.mk "carol" "h3" "+15550003" (Some ""%string)
                               (Some "carol.png"%string))
                sample (reachable_run sample_ops init reach_init)) as H.
  cbv zeta in H.
  destruct H as [[Hid _] [[Hget _] [_ [_ [_ [Hphoto _]]]]]].
  split; [exact Hid|]. split; [exact Hget|].
  split; [reflexivity|].
  apply Hphoto; [reflexivity | discriminate].
Defined.

(** ** Creating a board *)

Lemma createBoard_mid_inv (board : Board.t) (s : MemStorage) :
  store_inv s ->
  store_inv (set_boards (JsMap.set (currentBoardId s) board (boards s))
                        (currentBoardId s + 1) s).
Proof.
  intros []. inv_fields.
  - now apply JsMapFacts.wf_set.
  - apply JsMapFacts.below_set; [|lia].
    eapply JsMapFacts.below_mono; [eassumption | lia].
Qed.

(** X23. In a reachable store [createBoard] gives the board the next handle,
    which no stored board has, stamps it with the clock reading of the call,
    takes [primary] for an unset colour and no description for an unset
    one, and stores it.  When the pair (new board, creator) has no
    membership, the call appends one with role [admin] and the next
    membership handle; when the pair has one already, [addBoardMember]
    returns it and the membership map is left as it was.  Either way the
    store the call returns holds the board and exactly one membership of the
    pair, and the accounts and todos are untouched. *)
Theorem createBoard_bootstrap (d : InsertBoard.t) (now : Z) (s : MemStorage)
  (Hreach : reachable s) :
  let board := fst (createBoard d now s) in
  let s' := snd (createBoard d now s) in
  let creator := InsertBoard.createdBy d in
  (Board.id board = currentBoardId s
   /\ ~ In (Board.id board) (handles KBoard s)
   /\ currentBoardId s' = Board.id board + 1)
  /\ (Board.createdAt board = now
      /\ Board.title board = Defined (InsertBoard.title d)
      /\ Board.createdBy board = creator
      /\ Board.color board = Defined (string_or (InsertBoard.color d) "primary")
      /\ (InsertBoard.color d = None ->
          Board.color board = Defined "primary"%string)
      /\ Board.description board
         = Defined (string_or_null (InsertBoard.description d))
      /\ (InsertBoard.description d = None ->
          Board.description board = Defined None))
  /\ getBoard (Board.id board) s' = Some board
  /\ match memberships (Board.id board) creator s with
     | [] =>
         boardMembers s'
         = boardMembers s ++ [(currentBoardMemberId s, bootstrap_member d s)]
         /\ memberships (Board.id board) creator s' = [bootstrap_member d s]
     | existing :: _ =>
         boardMembers s' = boardMembers s
         /\ memberships (Board.id board) creator s' = [existing]
     end
  /\ users s' = users s /\ todos s' = todos s.
Proof.
  pose proof (reachable_inv s Hreach) as Hinv.
  unfold createBoard.
  set (board := Board.mk (currentBoardId s) _ _ _ _ now).
  set (s1 := set_boards _ _ s).
  set (im := InsertBoardMember.mk _ _ _).
  assert (Hinv1 : store_inv s1) by now apply createBoard_mid_inv.
  assert (Hget1 : getBoard (currentBoardId s) s1 = Some board).
  { unfold getBoard, s1. cbn [boards set_boards]. apply JsMapFacts.get_set_eq. }
  pose proof (addBoardMember_frame im s1) as (Hu & Hb & Ht & _ & Hcb & _).
  unfold memberships.
  destruct (find (same_pair (currentBoardId s) (InsertBoard.createdBy d))
                 (JsMap.values (boardMembers s1))) as [x|] eqn:Hfind.
  - pose proof (addBoardMember_existing im s1 x Hfind) as Hadd.
    rewrite Hadd in *. cbn [fst snd] in *.
    cbn [Board.id Board.createdAt Board.title Board.createdBy Board.color
         Board.description board].
    change (boardMembers s1) with (boardMembers s) in *.
    rewrite (unique_member _ _ _ _ (inv_pairs s Hinv) Hfind).
    repeat split; try assumption; try (now intros ->).
    apply JsMapFacts.below_fresh. now destruct Hinv.
  - pose proof (addBoardMember_new im s1 Hinv1 Hfind) as Hadd. cbv zeta in Hadd.
    rewrite Hadd in *. cbn [fst snd] in *.
    cbn [Board.id Board.createdAt Board.title Board.createdBy Board.color
         Board.description board].
    change (boardMembers s1) with (boardMembers s) in *.
    rewrite (find_none_filter _ _ Hfind).
    cbn [boardMembers set_boardMembers users todos currentBoardId getBoard boards]
      in *.
    unfold JsMap.values. rewrite map_app, filter_app.
    fold (JsMap.values (boardMembers s)).
    rewrite (find_none_filter _ _ Hfind).
    cbn [app map snd filter im InsertBoardMember.boardId InsertBoardMember.userId
         InsertBoardMember.role string_or truthy_string].
    assert (Hsp : same_pair (currentBoardId s) (InsertBoard.createdBy d)
                    (bootstrap_member d s) = true).
    { apply same_pair_spec. reflexivity. }
    change (currentBoardMemberId s1) with (currentBoardMemberId s).
    change (BoardMember.mk (currentBoardMemberId s) (currentBoardId s)
              (InsertBoard.createdBy d) _) with (bootstrap_member d s).
    rewrite Hsp.
    repeat split; try assumption; try (now intros ->).
    apply JsMapFacts.below_fresh. now destruct Hinv.
Qed.

Lemma createBoard_bootstrap_witness :
  let d := InsertBoard.mk "Roadmap" None None 2 in
  let board := fst (createBoard d 3000 sample) in
  let s' := snd (createBoard d 3000 sample) in
  Board.id board = 3
  /\ Board.createdAt board = 3000
  /\ Board.color board = Defined "primary"%string
  /\ Board.description board = Defined None
  /\ getBoard 3 s' = Some board
  /\ memberships 3 2 s' = [BoardMember.mk 4 3 2 "admin"].
Proof.
  cbv zeta.
  pose proof (createBoard_bootstrap (InsertBoard.mk "Roadmap" None None 2) 3000
                sample (reachable_run sample_ops init reach_init)) as H.
  cbv zeta in H.
  destruct H as [[Hid _] [[Hat [_ [_ [_ [Hcolor [_ Hdescr]]]]]] [Hget [Hm _]]]].
  split; [exact Hid|]. split; [exact Hat|].
  split; [exact (Hcolor eq_refl)|]. split; [exact (Hdescr eq_refl)|].
  split; [exact Hget|]. exact (proj2 Hm).
Defined.

(** C3. [createBoard] is meant to add its creator as an [admin] member (the
    comment above its [addBoardMember] call says so), and it does not always
    do so.  [addBoardMember] does not check that the board exists, so a
    membership can be added for handle 1 before board 1 exists; [createBoard]
    then gets that membership back, the creator of board 1 is left with role
    [viewer], and the store holds no [admin] membership at all. *)
Lemma createBoard_leaves_creator_viewer :
  let s0 := step (OpAddBoardMember (InsertBoardMember.mk 1 7 (Some "viewer"%string)))
                 init in
  let r := createBoard (InsertBoard.mk "Plan" None None 7) 5 s0 in
  Board.id (fst r) = 1
  /\ Board.createdBy (fst r) = 7
  /\ getBoardMembers 1 (snd r) = [BoardMember.mk 1 1 7 "viewer"]
  /\ filter (fun m => String.eqb (BoardMember.role m) "admin")
            (JsMap.values (boardMembers (snd r))) = [].
Proof. vm_compute. repeat split. Qed.

(** ** Updating a board *)

(** C7. [updateBoard] returns [undefined] and leaves the store alone when
    the board is absent.  For an update that carries neither [createdAt] nor
    [createdBy] (the program's only caller sends [title], [description] and
    [color]) it otherwise stores and returns the board in which [createdAt]
    and [createdBy] are as they were, every property the update carries has
    the update's value (which is [undefined] for a property sent without a
    value), and every property the update does not carry is as it was.
    Boards under other handles are not touched. *)
Theorem updateBoard_keeps_creation (id : Z) (u : PartialBoard.t)
  (s : MemStorage)
  (Hby : PartialBoard.createdBy u = None)
  (Hat : PartialBoard.createdAt u = None) :
  match JsMap.get id (boards s) with
  | None => updateBoard id u s = (None, s)
  | Some old =>
      exists new,
        fst (updateBoard id u s) = Some new
        /\ getBoard id (snd (updateBoard id u s)) = Some new
        /\ (forall id', id' <> id ->
              getBoard id' (snd (updateBoard id u s)) = getBoard id' s)
        /\ Board.createdAt new = Board.createdAt old
        /\ Board.createdBy new = Board.createdBy old
        /\ Board.id new
           = match PartialBoard.id u with Some x => x | None => Board.id old end
        /\ Board.title new
           = match PartialBoard.title u with Some x => x | None => Board.title old end
        /\ Board.description new
           = match PartialBoard.description u with
             | Some x => x | None => Board.description old end
        /\ Board.color new
           = match PartialBoard.color u with Some x => x | None => Board.color old end
  end.
Proof.
  unfold updateBoard, getBoard.
  destruct (JsMap.get id (boards s)) as [old|] eqn:Hget; [|reflexivity].
  exists (merge_board old u). cbn [fst snd boards set_boards].
  split; [reflexivity|]. split; [apply JsMapFacts.get_set_eq|].
  split; [intros id' Hne; apply JsMapFacts.get_set_ne; congruence|].
  unfold merge_board.
  cbn [Board.id Board.title Board.description Board.color Board.createdBy
       Board.createdAt].
  rewrite Hby, Hat. repeat split.
Qed.

Lemma updateBoard_keeps_creation_witness :
  let u := PartialBoard.mk None (Some (Defined "Launch"%string)) (Some Undefined)
                           (Some Undefined) None None in
  fst (updateBoard 1 u sample)
  = Some (Board.mk 1 (Defined "Launch"%string) Undefined Undefined 1 1000)
  /\ getBoard 1 (snd (updateBoard 1 u sample))
     = Some (Board.mk 1 (Defined "Launch"%string) Undefined Undefined 1 1000)
  /\ getBoard 2 (snd (updateBoard 1 u sample)) = getBoard 2 sample.
Proof.
  cbv zeta.
  pose proof (updateBoard_keeps_creation 1
                (PartialBoard.mk None (Some (Defined "Launch"%string))
                                 (Some Undefined) (Some Undefined) None None)
                sample eq_refl eq_refl) as H.
  change (JsMap.get 1 (boards sample))
    with (Some (Board.mk 1 (Defined "Launch Plan"%string) (Defined None)
                         (Defined "primary"%string) 1 1000)) in H.
  destruct H as (new & Hret & Hget & Hother & Hat & Hby & Hid & Ht & Hd & Hc).
  cbn in Hat, Hby, Hid, Ht, Hd, Hc.
  assert (Hnew : new = Board.mk 1 (Defined "Launch"%string) Undefined Undefined
                                1 1000).
  { destruct new. cbn in *. congruence. }
  rewrite Hnew in *. split; [exact Hret|]. split; [exact Hget|].
  apply Hother. discriminate.
Defined.

(** ** Updating a todo *)

(** C6 as the code has it.  [updateTodo] returns [undefined] and leaves the
    store alone when the todo is absent.  Otherwise it stores and returns a
    todo whose [updatedAt] is the clock reading of the call, whatever the
    update carries (an [updatedAt] of its own included); [updatedAt] grows
    strictly exactly when that reading is later than the stored one. *)
Theorem updateTodo_refreshes (id : Z) (u : PartialTodo.t) (now : Z)
  (s : MemStorage) :
  match JsMap.get id (todos s) with
  | None => updateTodo id u now s = (None, s)
  | Some old =>
      exists new,
        fst (updateTodo id u now s) = Some new
        /\ getTodo id (snd (updateTodo id u now s)) = Some new
        /\ Todo.updatedAt new = now
        /\ (Todo.updatedAt old < Todo.updatedAt new <-> Todo.updatedAt old < now)
  end.
Proof.
  unfold updateTodo, getTodo.
  destruct (JsMap.get id (todos s)) as [old|] eqn:Hget; [|reflexivity].
  exists (merge_todo old u now). cbn [fst snd todos set_todos].
  repeat split; try (cbn; lia).
  apply JsMapFacts.get_set_eq.
Qed.

(** C6 as stated fails: an update made at the clock reading at which the
    todo was created leaves [updatedAt] where it was. *)
Lemma updateTodo_refreshes_counterexample :
  option_map Todo.updatedAt (getTodo 1 sample) = Some 1002
  /\ option_map Todo.updatedAt (fst (updateTodo 1 PartialTodo.none 1002 sample))
     = Some 1002
  /\ option_map Todo.updatedAt
       (getTodo 1 (snd (updateTodo 1 PartialTodo.none 1002 sample)))
     = Some 1002.
Proof. vm_compute. repeat split. Qed.

(** ** Boards of an account *)

Lemma set_has (x : Z) (l : JsSet.t) : JsSet.has x l = true <-> In x l.
Proof.
  unfold JsSet.has. rewrite existsb_exists. split.
  - intros [y [Hin Heq]]. apply Z.eqb_eq in Heq. now subst.
  - intros Hin. exists x. now rewrite Z.eqb_refl.
Qed.

Lemma set_add_In (x h : Z) (l : JsSet.t) :
  In h (JsSet.add x l) <-> In h l \/ h = x.
Proof.
  unfold JsSet.add. destruct (JsSet.has x l) eqn:Hhas.
  - apply set_has in Hhas. split; [tauto | intros [H| ->]; assumption].
  - rewrite in_app_iff. simpl. intuition.
Qed.

Lemma set_add_NoDup (x : Z) (l : JsSet.t) : NoDup l -> NoDup (JsSet.add x l).
Proof.
  intros Hnd. unfold JsSet.add. destruct (JsSet.has x l) eqn:Hhas; [assumption|].
  apply NoDup_app; [assumption | repeat constructor; simpl; tauto |].
  intros y Hy [<-|[]]. apply set_has in Hy. congruence.
Qed.

Lemma set_add_all_In (xs : list Z) (l : JsSet.t) (h : Z) :
  In h (JsSet.add_all xs l) <-> In h l \/ In h xs.
Proof.
  unfold JsSet.add_all. revert l. induction xs as [|x xs IH]; intros l; simpl.
  - tauto.
  - rewrite IH, set_add_In. intuition.
Qed.

Lemma set_add_all_NoDup (xs : list Z) (l : JsSet.t) :
  NoDup l -> NoDup (JsSet.add_all xs l).
Proof.
  unfold JsSet.add_all. revert l. induction xs as [|x xs IH]; intros l Hnd; simpl.
  - assumption.
  - apply IH. now apply set_add_NoDup.
Qed.

Lemma value_entry {V : Type} (v : V) (m : JsMap.t V) :
  In v (JsMap.values m) <-> exists k, In (k, v) m.
Proof.
  unfold JsMap.values. rewrite in_map_iff. split.
  - intros [[k v'] [Hv Hin]]. simpl in Hv. subst. now exists k.
  - intros [k Hin]. now exists (k, v).
Qed.

(** Under [boards_keyed], the boards with a given [id] field are the board
    stored under that handle. *)
Lemma keyed_board (s : MemStorage) (h : Z) (b : Board.t) :
  boards_keyed s ->
  (In b (JsMap.values (boards s)) /\ Board.id b = h) <-> getBoard h s = Some b.
Proof.
  intros [Hwf Hkeyed]. unfold getBoard, JsMap.entries in *.
  rewrite Forall_forall in Hkeyed. split.
  - intros [Hin Hid]. apply value_entry in Hin. destruct Hin as [k Hin].
    pose proof (Hkeyed _ Hin) as Hk. simpl in Hk.
    apply JsMapFacts.In_get; [assumption | congruence].
  - intros Hget. apply JsMapFacts.get_In in Hget. split.
    + apply value_entry. now exists h.
    + exact (Hkeyed _ Hget).
Qed.

Lemma Forall_set {V : Type} (P : Z * V -> Prop) (k : Z) (v : V) (m : JsMap.t V) :
  Forall P m -> P (k, v) -> Forall P (JsMap.set k v m).
Proof.
  intros Hall Hnew. induction Hall as [|[k0 v0] m H0 Hall IH]; simpl.
  - now constructor.
  - destruct (k0 =? k); constructor; assumption.
Qed.

Lemma Forall_filter {A : Type} (P : A -> Prop) (keep : A -> bool) (l : list A) :
  Forall P l -> Forall P (filter keep l).
Proof.
  rewrite !Forall_forall. intros H x Hx. apply filter_In in Hx. now apply H.
Qed.

Lemma init_keyed : boards_keyed init.
Proof. split; constructor. Qed.

(** [boards_keyed] survives every call that does not rewrite a board's [id]. *)
Lemma step_keeps_keyed (op : Op) (s : MemStorage) :
  boards_keyed s -> keeps_board_ids op -> boards_keyed (step op s).
Proof.
  intros [Hwf Hall] Hop. unfold step, boards_keyed, JsMap.entries in *.
  destruct op; cbn [exec snd]; try (split; assumption).
  - unfold createBoard.
    match goal with
    | |- context [addBoardMember ?im ?s1] =>
        pose proof (addBoardMember_frame im s1) as (_ & Hb & _);
        destruct (addBoardMember im s1) as [r s2]
    end.
    cbn [snd boards set_boards] in *. rewrite Hb. split.
    + now apply JsMapFacts.wf_set.
    + now apply Forall_set.
  - unfold updateBoard.
    destruct (JsMap.get id (boards s)) as [old|] eqn:Hget; cbn [snd];
      [|now split].
    cbn [boards set_boards]. split; [now apply JsMapFacts.wf_set|].
    apply Forall_set; [assumption|].
    apply JsMapFacts.get_In in Hget. rewrite Forall_forall in Hall.
    specialize (Hall _ Hget). cbn in *.
    destruct Hop as [Hid|Hid]; rewrite Hid; cbn; congruence.
  - destruct (JsMap.get id (boards s)) as [old|] eqn:Hget.
    + rewrite (deleteBoard_present id s old Hget). cbn [snd boards].
      unfold JsMap.remove. split.
      * now apply JsMapFacts.wf_filter.
      * now apply Forall_filter.
    + rewrite (deleteBoard_absent id s Hget). now split.
  - pose proof (addBoardMember_frame member s) as (_ & Hb & _).
    destruct (addBoardMember member s) as [r s2]. cbn [snd] in *.
    rewrite Hb. now split.
  - unfold removeBoardMember.
    destruct (find_member_entry boardId userId s) as [[k m]|]; cbn; now split.
  - unfold updateBoardMemberRole.
    destruct (find_member_entry boardId userId s) as [[k m]|]; cbn; now split.
  - unfold updateTodo. destruct (JsMap.get id (todos s)); cbn; now split.
Qed.

Lemma run_keeps_keyed (ops : list Op) (s : MemStorage) :
  boards_keyed s -> Forall keeps_board_ids ops -> boards_keyed (run ops s).
Proof.
  unfold run. intros Hk Hops. revert s Hk.
  induction Hops as [|op ops Hop _ IH]; intros s Hk; simpl; [assumption|].
  apply IH. now apply step_keeps_keyed.
Qed.

(** X24. When every board is stored under its own [id], [getBoardsByUser]
    returns one entry for each handle of a duplicate-free list [ids], and a
    handle is on that list exactly when the board stored under it was
    created by the account or when a membership of the account names it; a
    handle that qualifies both ways is there once.  The entry of a handle
    carries the board stored under it (whose [id] is the handle), the number
    of todos whose [boardId] is the handle and the number of memberships
    whose [boardId] is the handle. *)
Theorem getBoardsByUser_union (userId : Z) (s : MemStorage)
  (Hkeyed : boards_keyed s) :
  exists ids,
    NoDup ids
    /\ (forall h, In h ids <->
          (exists b, getBoard h s = Some b /\ Board.createdBy b = userId)
          \/ (exists m, In m (JsMap.values (boardMembers s))
                        /\ BoardMember.userId m = userId
                        /\ BoardMember.boardId m = h))
    /\ getBoardsByUser userId s
       = map (fun h =>
                BoardWithMemberCount.mk
                  (getBoard h s)
                  (List.length (filter (fun t => Todo.boardId t =? h)
                                       (JsMap.values (todos s))))
                  (List.length (filter (fun m => BoardMember.boardId m =? h)
                                       (JsMap.values (boardMembers s)))))
             ids
    /\ (forall h b, getBoard h s = Some b -> Board.id b = h).
Proof.
  exists (boardIds_of userId s). split; [|split; [|split]].
  - unfold boardIds_of. apply set_add_all_NoDup, set_add_all_NoDup. constructor.
  - intros h. unfold boardIds_of. rewrite !set_add_all_In.
    unfold JsSet.empty. rewrite !in_map_iff. split.
    + intros [[[]|[b [Hid Hin]]]|[m [Hid Hin]]].
      * apply filter_In in Hin. destruct Hin as [Hin Hc].
        left. exists b. split.
        -- now apply (keyed_board s h b Hkeyed).
        -- now apply Z.eqb_eq in Hc.
      * apply filter_In in Hin. destruct Hin as [Hin Hc].
        right. exists m. repeat split; try assumption.
        now apply Z.eqb_eq in Hc.
    + intros [[b [Hget Hc]]|[m [Hin [Hu Hb]]]].
      * apply (keyed_board s h b Hkeyed) in Hget. destruct Hget as [Hin Hid].
        left. right. exists b. split; [assumption|].
        apply filter_In. split; [assumption|]. now apply Z.eqb_eq.
      * right. exists m. split; [assumption|].
        apply filter_In. split; [assumption|]. now apply Z.eqb_eq.
  - reflexivity.
  - intros h b Hget. now apply (keyed_board s h b Hkeyed) in Hget.
Qed.

Lemma getBoardsByUser_union_witness :
  exists ids,
    NoDup ids
    /\ (forall h, In h ids <->
          (exists b, getBoard h sample = Some b /\ Board.createdBy b = 2)
          \/ (exists m, In m (JsMap.values (boardMembers sample))
                        /\ BoardMember.userId m = 2
                        /\ BoardMember.boardId m = h))
    /\ getBoardsByUser 2 sample
       = map (fun h =>
                BoardWithMemberCount.mk
                  (getBoard h sample)
                  (List.length (filter (fun t => Todo.boardId t =? h)
                                       (JsMap.values (todos sample))))
                  (List.length (filter (fun m => BoardMember.boardId m =? h)
                                       (JsMap.values (boardMembers sample)))))
             ids
    /\ (forall h b, getBoard h sample = Some b -> Board.id b = h).
Proof.
  apply (getBoardsByUser_union 2 sample).
  apply run_keeps_keyed; [exact init_keyed | repeat constructor].
Defined.

(** C5. [getBoardsByUser] is meant to return boards: its result type is
    [BoardWithMemberCount[]] and it reads each board with a non-null
    assertion.  [addBoardMember] does not check that the board exists, so on
    the store made by one [addBoardMember] for board 9 and account 1, where
    no board is stored at all, the list for account 1 has one entry, with no
    board in it, no todo and one member. *)
Lemma getBoardsByUser_lists_missing_board :
  let s := step (OpAddBoardMember (InsertBoardMember.mk 9 1 None)) init in
  reachable s
  /\ boards_keyed s
  /\ getBoard 9 s = None
  /\ getBoards s = []
  /\ getBoardsByUser 1 s = [BoardWithMemberCount.mk None 0 1].
Proof.
  cbv zeta. split; [apply reach_step, reach_init|].
  split; [apply step_keeps_keyed; [exact init_keyed | exact I]|].
  vm_compute. repeat split.
Qed.

(** ** Not-found outcomes *)

Lemma find_existsb {A : Type} (p : A -> bool) (l : list A) :
  match find p l with Some _ => true | None => false end = existsb p l.
Proof.
  induction l as [|x l IH]; simpl; [reflexivity|].
  destruct (p x); [reflexivity | exact IH].
Qed.

Lemma find_entry_existsb {V : Type} (p : V -> bool) (m : JsMap.t V) :
  match find (fun e => p (snd e)) (JsMap.entries m) with
  | Some _ => true
  | None => false
  end = existsb p (JsMap.values m).
Proof.
  unfold JsMap.entries, JsMap.values.
  induction m as [|e m IH]; simpl; [reflexivity|].
  destruct (p (snd e)); [reflexivity | exact IH].
Qed.

Lemma deleteTodo_absent (id : Z) (s : MemStorage) :
  JsMap.get id (todos s) = None -> deleteTodo id s = (false, s).
Proof.
  intros Hget. unfold deleteTodo, JsMap.delete, JsMap.has. rewrite Hget.
  rewrite JsMapFacts.remove_absent by now apply JsMapFacts.get_None.
  unfold set_todos. now rewrite store_eta.
Qed.

(** C9. Every call of the interface resolves: [exec] is a total function
    into [Response], which has no outcome for a fault.  The outcome is a
    sentinel ([undefined] or [false]) exactly when the entity that the call
    addresses is not in the store, and a call that ends in a sentinel leaves
    the store as it was. *)
Theorem not_found_is_the_only_failure (op : Op) (s : MemStorage) :
  is_sentinel (fst (exec op s)) = target_missing op s
  /\ (is_sentinel (fst (exec op s)) = true -> snd (exec op s) = s).
Proof.
  destruct op; cbn [exec target_missing].
  - unfold getUser, JsMap.has. destruct (JsMap.get id (users s)); cbn; tauto.
  - unfold getUserByUsername. rewrite <- find_existsb.
    destruct (find _ _); cbn; tauto.
  - unfold getUserByPhoneNumber. rewrite <- find_existsb.
    destruct (find _ _); cbn; tauto.
  - unfold createUser. cbn. split; [reflexivity | discriminate].
  - cbn. tauto.
  - cbn. tauto.
  - unfold getBoard, JsMap.has. destruct (JsMap.get id (boards s)); cbn; tauto.
  - unfold getBoardWithMembers, JsMap.has.
    destruct (JsMap.get id (boards s)); cbn; tauto.
  - destruct (createBoard board now s). cbn.
    split; [reflexivity | discriminate].
  - unfold updateBoard, JsMap.has.
    destruct (JsMap.get id (boards s)); cbn;
      (split; [reflexivity | try discriminate; reflexivity]).
  - unfold JsMap.has.
    destruct (JsMap.get id (boards s)) as [board|] eqn:Hget.
    + rewrite (deleteBoard_present id s board Hget). cbn.
      split; [reflexivity | discriminate].
    + rewrite (deleteBoard_absent id s Hget). cbn. tauto.
  - cbn. tauto.
  - destruct (addBoardMember member s). cbn.
    split; [reflexivity | discriminate].
  - unfold removeBoardMember, find_member_entry.
    rewrite <- (find_entry_existsb (same_pair boardId userId)).
    destruct (find _ _) as [[k m]|]; cbn;
      (split; [reflexivity | try discriminate; reflexivity]).
  - unfold updateBoardMemberRole, find_member_entry.
    rewrite <- (find_entry_existsb (same_pair boardId userId)).
    destruct (find _ _) as [[k m]|]; cbn;
      (split; [reflexivity | try discriminate; reflexivity]).
  - cbn. tauto.
  - unfold getTodo, JsMap.has. destruct (JsMap.get id (todos s)); cbn; tauto.
  - unfold createTodo. cbn. split; [reflexivity | discriminate].
  - unfold updateTodo, JsMap.has.
    destruct (JsMap.get id (todos s)); cbn;
      (split; [reflexivity | try discriminate; reflexivity]).
  - unfold JsMap.has.
    destruct (JsMap.get id (todos s)) as [todo|] eqn:Hget.
    + unfold deleteTodo, JsMap.delete, JsMap.has. rewrite Hget. cbn.
      split; [reflexivity | discriminate].
    + rewrite (deleteTodo_absent id s Hget). cbn. tauto.
Qed.

(** ** The scenario of the specification, run on the model *)

Example launch_plan_scenario :
  let '(alice, s1) :=
    createUser (InsertUser.mk "alice" "hash" "+15550001" None None) init in
  let '(board, s2) :=
    createBoard (InsertBoard.mk "Launch Plan" None None (User.id alice)) 10 s1 in
  let '(todo, s3) :=
    createTodo (InsertTodo.mk (Board.id board) "Write spec" None None None None
                              None (User.id alice)) 20 s2 in
  let completed :=
    PartialTodo.mk None None None None None None (Some "completed"%string)
                   None None None None in
  let '(updated, s4) := updateTodo (Todo.id todo) completed 30 s3 in
  let '(deleted, s5) := deleteBoard (Board.id board) s4 in
  getBoardMembers (Board.id board) s2
  = [BoardMember.mk 1 (Board.id board) (User.id alice) "admin"]
  /\ getTodos (Board.id board) s2 = []
  /\ getTodos (Board.id board) s3 = [TodoWithAssignee.mk todo None]
  /\ Todo.status todo = "todo"%string
  /\ option_map Todo.status updated = Some "completed"%string
  /\ option_map Todo.updatedAt updated = Some 30
  /\ deleted = true
  /\ getTodos (Board.id board) s5 = []
  /\ memberships (Board.id board) (User.id alice) s5 = [].
Proof. vm_compute. repeat split. Qed.

(** * Further properties of the storage layer *)

(** ** Handles stay within their range *)

Lemma reachable_range (s : MemStorage) (k : Kind) :
  reachable s ->
  1 <= counter k s /\ forall h, In h (handles k s) -> 1 <= h < counter k s.
Proof.
  induction 1 as [|op s _ [IHc IHh]].
  - destruct k; cbn; (split; [lia | tauto]).
  - pose proof (step_grows k op s) as [Hc Hh]. split; [lia|].
    intros h Hin. destruct (Hh h Hin) as [Hold|[-> Hnew]].
    + specialize (IHh h Hold). lia.
    + lia.
Qed.

(** X1. In every reachable store the handles in use of each kind are
    positive and below the kind's counter: no entity ever has handle 0 or a
    negative handle, and the next handle to be given is larger than all
    handles in use. *)
Theorem handles_are_positive (s : MemStorage) (k : Kind) (h : Z)
  (Hreach : reachable s) (Hin : In h (handles k s)) :
  1 <= h < counter k s.
Proof.
  destruct (reachable_range s k Hreach) as [_ Hrange]. now apply Hrange.
Qed.

Lemma handles_are_positive_witness :
  In 2 (handles KUser sample) /\ 1 <= 2 < counter KUser sample.
Proof.
  assert (Hin : In 2 (handles KUser sample)) by (vm_compute; tauto).
  split; [exact Hin|].
  exact (handles_are_positive sample KUser 2
           (reachable_run sample_ops init reach_init) Hin).
Defined.

(** ** Deleting twice, updating twice *)

Lemma set_twice {V : Type} (k : Z) (v v' : V) (m : JsMap.t V) :
  JsMap.set k v (JsMap.set k v' m) = JsMap.set k v m.
Proof.
  induction m as [|[k0 v0] m IH]; simpl.
  - now rewrite Z.eqb_refl.
  - destruct (Z.eqb_spec k0 k) as [->|Hne]; simpl.
    + now rewrite Z.eqb_refl.
    + destruct (Z.eqb_spec k0 k); [contradiction | now rewrite IH].
Qed.

(** X2. A second [deleteBoard] of the same handle, right after the first,
    finds nothing: it returns [false] and changes nothing, whether or not
    the first call found the board. *)
Theorem deleteBoard_twice (id : Z) (s : MemStorage) :
  deleteBoard id (snd (deleteBoard id s)) = (false, snd (deleteBoard id s)).
Proof.
  apply deleteBoard_absent.
  destruct (JsMap.get id (boards s)) as [board|] eqn:Hget.
  - rewrite (deleteBoard_present id s board Hget). cbn [snd boards].
    apply JsMapFacts.get_remove_eq.
  - now rewrite (deleteBoard_absent id s Hget).
Qed.

Lemma spread_twice {A : Type} (x : A) (o : option A) :
  spread (spread x o) o = spread x o.
Proof. now destruct o. Qed.

Lemma merge_board_twice (b : Board.t) (u : PartialBoard.t) :
  merge_board (merge_board b u) u = merge_board b u.
Proof.
  unfold merge_board. cbn [Board.id Board.title Board.description Board.color
                           Board.createdBy Board.createdAt].
  now rewrite !spread_twice.
Qed.

(** X3. [updateBoard] is idempotent: repeating a call with the same handle
    and the same partial update returns the same board and leaves the store
    the first call produced. *)
Theorem updateBoard_twice (id : Z) (u : PartialBoard.t) (s : MemStorage) :
  updateBoard id u (snd (updateBoard id u s))
  = (fst (updateBoard id u s), snd (updateBoard id u s)).
Proof.
  unfold updateBoard at 2 3 4.
  destruct (JsMap.get id (boards s)) as [board|] eqn:Hget; cbn [fst snd].
  - unfold updateBoard. cbn [boards set_boards currentBoardId].
    rewrite JsMapFacts.get_set_eq, merge_board_twice, set_twice.
    reflexivity.
  - unfold updateBoard. now rewrite Hget.
Qed.

(** ** Accounts and memberships keep their handle *)

Lemma init_entities_keyed : accounts_keyed init /\ members_keyed init.
Proof. split; constructor. Qed.

Lemma Forall_delete_where {V : Type} (P : Z * V -> Prop) (test : V -> bool)
  (m : JsMap.t V) : Forall P m -> Forall P (delete_where test m).
Proof.
  rewrite !Forall_forall. intros H e He. apply H.
  now apply delete_where_In in He.
Qed.

Lemma addBoardMember_keyed (im : InsertBoardMember.t) (s : MemStorage) :
  members_keyed s -> members_keyed (snd (addBoardMember im s)).
Proof.
  unfold members_keyed, JsMap.entries, addBoardMember.
  destruct (find _ _); cbn [snd boardMembers set_boardMembers]; [tauto|].
  intros H. now apply Forall_set.
Qed.

Lemma step_entities_keyed (op : Op) (s : MemStorage) :
  accounts_keyed s /\ members_keyed s ->
  accounts_keyed (step op s) /\ members_keyed (step op s).
Proof.
  intros [Hu Hm]. unfold step, accounts_keyed, members_keyed, JsMap.entries in *.
  destruct op; cbn [exec snd]; try (split; assumption).
  - unfold createUser. cbn. split; [now apply Forall_set | assumption].
  - unfold createBoard.
    match goal with
    | |- context [addBoardMember ?im ?s1] =>
        pose proof (addBoardMember_frame im s1) as (Hus & _);
        pose proof (addBoardMember_keyed im s1 Hm) as Hk;
        destruct (addBoardMember im s1) as [r s2]
    end.
    cbn [snd] in *. rewrite Hus. now split.
  - unfold updateBoard. destruct (JsMap.get id (boards s)); cbn; now split.
  - destruct (JsMap.get id (boards s)) as [board|] eqn:Hget.
    + rewrite (deleteBoard_present id s board Hget). cbn [snd users boardMembers].
      split; [assumption | now apply Forall_delete_where].
    + rewrite (deleteBoard_absent id s Hget). now split.
  - pose proof (addBoardMember_frame member s) as (Hus & _).
    pose proof (addBoardMember_keyed member s Hm) as Hk.
    destruct (addBoardMember member s) as [r s2]. cbn [snd] in *.
    rewrite Hus. now split.
  - unfold removeBoardMember.
    destruct (find_member_entry boardId userId s) as [[k m]|]; cbn;
      [|now split].
    split; [assumption | now apply Forall_filter].
  - unfold updateBoardMemberRole.
    destruct (find_member_entry boardId userId s) as [[k m]|] eqn:Hfind; cbn;
      [|now split].
    split; [assumption|]. apply Forall_set; [assumption|].
    apply find_member_entry_In in Hfind. destruct Hfind as [Hin _].
    rewrite Forall_forall in Hm. exact (Hm _ Hin).
  - unfold updateTodo. destruct (JsMap.get id (todos s)); cbn; now split.
Qed.

Lemma reachable_entities_keyed (s : MemStorage) :
  reachable s -> accounts_keyed s /\ members_keyed s.
Proof.
  induction 1 as [|op s _ IH];
    [exact init_entities_keyed | now apply step_entities_keyed].
Qed.

Lemma stored_account (s : MemStorage) (u : User.t) :
  reachable s -> In u (JsMap.values (users s)) -> getUser (User.id u) s = Some u.
Proof.
  intros Hreach Hin. apply value_entry in Hin. destruct Hin as [k Hin].
  destruct (reachable_entities_keyed s Hreach) as [Hk _].
  unfold accounts_keyed, JsMap.entries in Hk. rewrite Forall_forall in Hk.
  pose proof (Hk _ Hin) as Hid. simpl in Hid. unfold getUser.
  apply JsMapFacts.In_get.
  - exact (inv_users_wf s (reachable_inv s Hreach)).
  - now rewrite Hid.
Qed.

(** X4. In every reachable store an account found by its phone number or by
    its login name has that phone number, respectively that name, and
    reading the store by the account's own [id] gives the same account
    back. *)
Theorem account_lookups_agree (s : MemStorage) (Hreach : reachable s) :
  (forall phone u,
     getUserByPhoneNumber phone s = Some u ->
     User.phoneNumber u = phone /\ getUser (User.id u) s = Some u)
  /\ (forall name u,
        getUserByUsername name s = Some u ->
        User.username u = name /\ getUser (User.id u) s = Some u).
Proof.
  split; intros key u Hfound; apply find_some in Hfound;
    destruct Hfound as [Hin Heq]; apply String.eqb_eq in Heq;
    (split; [assumption | now apply stored_account]).
Qed.

Lemma account_lookups_agree_witness :
  getUserByPhoneNumber "+15550002" sample
  = Some (User.mk 2 "bob" "h2" "+15550002" (Some "Bob"%string) None)
  /\ getUser 2 sample
     = Some (User.mk 2 "bob" "h2" "+15550002" (Some "Bob"%string) None).
Proof.
  assert (Hfound : getUserByPhoneNumber "+15550002" sample
                   = Some (User.mk 2 "bob" "h2" "+15550002"
                                   (Some "Bob"%string) None))
    by reflexivity.
  split; [exact Hfound|].
  exact (proj2 (proj1 (account_lookups_agree sample
                         (reachable_run sample_ops init reach_init))
                      _ _ Hfound)).
Defined.

(** ** Looking an account up after creating it *)

Lemma find_snoc {A : Type} (p : A -> bool) (l : list A) (x : A) :
  find p (l ++ [x])
  = match find p l with
    | Some y => Some y
    | None => if p x then Some x else None
    end.
Proof.
  induction l as [|y l IH]; simpl; [reflexivity|].
  destruct (p y); [reflexivity | exact IH].
Qed.

Lemma createUser_appends (d : InsertUser.t) (s : MemStorage) :
  reachable s ->
  users (snd (createUser d s))
  = users s ++ [(currentUserId s, fst (createUser d s))].
Proof.
  intros Hreach. unfold createUser. cbn [fst snd users set_users].
  apply JsMapFacts.set_fresh, JsMapFacts.below_fresh.
  exact (inv_users_below s (reachable_inv s Hreach)).
Qed.

(** X5. In a reachable store, after [createUser] a lookup by the new
    account's phone number returns the new account only when no stored
    account had that number; otherwise it keeps returning the older account
    (the storage layer itself does not reject the duplicate).  Lookups by
    any other phone number are unchanged. *)
Theorem createUser_then_lookup (d : InsertUser.t) (s : MemStorage)
  (Hreach : reachable s) :
  let user := fst (createUser d s) in
  let s' := snd (createUser d s) in
  getUserByPhoneNumber (InsertUser.phoneNumber d) s'
  = match getUserByPhoneNumber (InsertUser.phoneNumber d) s with
    | Some older => Some older
    | None => Some user
    end
  /\ forall phone, phone <> InsertUser.phoneNumber d ->
       getUserByPhoneNumber phone s' = getUserByPhoneNumber phone s.
Proof.
  cbv zeta. unfold getUserByPhoneNumber.
  rewrite (createUser_appends d s Hreach). unfold JsMap.values.
  rewrite map_app. cbn [map snd]. split.
  - rewrite find_snoc. unfold createUser at 1. cbn [fst User.phoneNumber].
    now rewrite String.eqb_refl.
  - intros phone Hne. rewrite find_snoc.
    destruct (find _ _); [reflexivity|].
    unfold createUser. cbn [fst User.phoneNumber].
    destruct (String.eqb_spec (InsertUser.phoneNumber d) phone);
      [congruence | reflexivity].
Qed.

Lemma createUser_then_lookup_witness :
  let d := InsertUser.mk "bob2" "h9" "+15550002" None None in
  getUserByPhoneNumber "+15550002" (snd (createUser d sample))
  = Some (User.mk 2 "bob" "h2" "+15550002" (Some "Bob"%string) None).
Proof.
  cbv zeta.
  exact (proj1 (createUser_then_lookup
                  (InsertUser.mk "bob2" "h9" "+15550002" None None) sample
                  (reachable_run sample_ops init reach_init))).
Defined.

(** ** Todos of a board *)

Lemma getTodos_map (b : Z) (s : MemStorage) :
  getTodos b s
  = map (with_assignee s) (filter (todo_on b) (JsMap.values (todos s))).
Proof. reflexivity. Qed.

Lemma createTodo_appends (d : InsertTodo.t) (now : Z) (s : MemStorage) :
  reachable s ->
  todos (snd (createTodo d now s))
  = todos s ++ [(currentTodoId s, fst (createTodo d now s))].
Proof.
  intros Hreach. unfold createTodo. cbn [fst snd todos set_todos].
  apply JsMapFacts.set_fresh, JsMapFacts.below_fresh.
  exact (inv_todos_below s (reachable_inv s Hreach)).
Qed.

(** X6. In a reachable store [createTodo] stamps the todo with the clock
    reading of the call as both [createdAt] and [updatedAt], and stores it
    where [getTodo] finds it; the todo list of its board is the list from
    before with the new todo at the end, and the todo lists of all other
    boards are as before. *)
Theorem createTodo_then_list (d : InsertTodo.t) (now : Z) (s : MemStorage)
  (Hreach : reachable s) :
  let todo := fst (createTodo d now s) in
  let s' := snd (createTodo d now s) in
  (Todo.createdAt todo = now /\ Todo.updatedAt todo = now)
  /\ getTodo (Todo.id todo) s' = Some todo
  /\ getTodos (InsertTodo.boardId d) s'
     = getTodos (InsertTodo.boardId d) s ++ [with_assignee s todo]
  /\ forall b, b <> InsertTodo.boardId d -> getTodos b s' = getTodos b s.
Proof.
  cbv zeta. split; [split; reflexivity|]. split.
  { unfold createTodo, getTodo. cbn [fst snd todos set_todos Todo.id].
    apply JsMapFacts.get_set_eq. }
  assert (Husers : users (snd (createTodo d now s)) = users s) by reflexivity.
  assert (Hwith : forall t, with_assignee (snd (createTodo d now s)) t
                            = with_assignee s t).
  { intros t. unfold with_assignee. now rewrite Husers. }
  split.
  - rewrite !getTodos_map, (createTodo_appends d now s Hreach).
    unfold JsMap.values. rewrite map_app, filter_app, map_app. cbn [map snd filter].
    replace (todo_on (InsertTodo.boardId d) (fst (createTodo d now s)))
      with true by (unfold todo_on, createTodo; cbn; now rewrite Z.eqb_refl).
    reflexivity.
  - intros b Hne.
    rewrite !getTodos_map, (createTodo_appends d now s Hreach).
    unfold JsMap.values. rewrite map_app, filter_app, map_app. cbn [map snd filter].
    replace (todo_on b (fst (createTodo d now s))) with false.
    + cbn [map]. rewrite app_nil_r. reflexivity.
    + unfold todo_on, createTodo. cbn. symmetry. apply Z.eqb_neq. congruence.
Qed.

Lemma createTodo_then_list_witness :
  let d := InsertTodo.mk 2 "Plan" None None None None (Some 2) 1 in
  let todo := fst (createTodo d 5000 sample) in
  Todo.updatedAt todo = 5000
  /\ List.length (getTodos 2 (snd (createTodo d 5000 sample))) = 2%nat
  /\ getTodos 1 (snd (createTodo d 5000 sample)) = getTodos 1 sample.
Proof.
  cbv zeta.
  pose proof (createTodo_then_list
                (InsertTodo.mk 2 "Plan" None None None None (Some 2) 1) 5000
                sample (reachable_run sample_ops init reach_init)) as H.
  cbv zeta in H. destruct H as [[_ Hup] [_ [Hlist Hother]]].
  split; [exact Hup|]. split.
  - change 2 with (InsertTodo.boardId
                     (InsertTodo.mk 2 "Plan" None None None None (Some 2) 1))
      at 1.
    rewrite Hlist. reflexivity.
  - apply Hother. discriminate.
Defined.

Lemma remove_splits {V : Type} (k : Z) (v : V) (m : JsMap.t V) :
  JsMap.wf m -> JsMap.get k m = Some v ->
  exists l1 l2, m = l1 ++ (k, v) :: l2 /\ JsMap.remove k m = l1 ++ l2.
Proof.
  unfold JsMap.wf, JsMap.keys, JsMap.remove.
  induction m as [|[k0 v0] m IH]; simpl; [discriminate|].
  intros Hnd Hget. inversion Hnd as [|? ? Hnotin Hnd']; subst.
  destruct (Z.eqb_spec k0 k) as [->|Hne]; simpl.
  - injection Hget as ->. exists [], m. split; [reflexivity|].
    simpl. now apply JsMapFacts.remove_absent.
  - destruct (IH Hnd' Hget) as (l1 & l2 & Hm & Hr).
    exists ((k0, v0) :: l1), l2. simpl. split; congruence.
Qed.

(** X7. When the todo map has distinct keys and holds a todo under the
    handle, [deleteTodo] returns [true]; afterwards the handle reads as
    absent, every other handle reads as before, the todo list of the todo's
    board is the old list with exactly that one entry taken out, and the
    lists of the other boards are unchanged. *)
Theorem deleteTodo_removes_one (id : Z) (t : Todo.t) (s : MemStorage)
  (Hwf : JsMap.wf (todos s)) (Hget : getTodo id s = Some t) :
  let s' := snd (deleteTodo id s) in
  fst (deleteTodo id s) = true
  /\ getTodo id s' = None
  /\ (forall id', id' <> id -> getTodo id' s' = getTodo id' s)
  /\ (exists before after,
        getTodos (Todo.boardId t) s = before ++ with_assignee s t :: after
        /\ getTodos (Todo.boardId t) s' = before ++ after)
  /\ forall b, b <> Todo.boardId t -> getTodos b s' = getTodos b s.
Proof.
  cbv zeta. unfold getTodo in *.
  destruct (remove_splits id t (todos s) Hwf Hget) as (l1 & l2 & Hm & Hr).
  assert (Hs' : todos (snd (deleteTodo id s)) = l1 ++ l2) by exact Hr.
  assert (Hwith : forall x, with_assignee (snd (deleteTodo id s)) x
                            = with_assignee s x) by reflexivity.
  split; [|split; [|split; [|split]]].
  - unfold deleteTodo, JsMap.delete, JsMap.has. now rewrite Hget.
  - unfold deleteTodo. cbn [snd JsMap.delete todos set_todos].
    apply JsMapFacts.get_remove_eq.
  - intros id' Hne. unfold deleteTodo. cbn [snd JsMap.delete todos set_todos].
    apply JsMapFacts.get_remove_ne. congruence.
  - exists (map (with_assignee s)
                (filter (todo_on (Todo.boardId t)) (JsMap.values l1))),
           (map (with_assignee s)
                (filter (todo_on (Todo.boardId t)) (JsMap.values l2))).
    rewrite !getTodos_map, Hs', Hm. unfold JsMap.values.
    rewrite !map_app, !filter_app. cbn [map snd filter].
    replace (todo_on (Todo.boardId t) t) with true
      by (unfold todo_on; now rewrite Z.eqb_refl).
    rewrite !map_app. cbn [map]. split; reflexivity.
  - intros b Hne. rewrite !getTodos_map, Hs', Hm. unfold JsMap.values.
    rewrite !map_app, !filter_app. cbn [map snd filter].
    replace (todo_on b t) with false
      by (unfold todo_on; symmetry; apply Z.eqb_neq; congruence).
    rewrite !map_app. reflexivity.
Qed.

Lemma deleteTodo_removes_one_witness :
  fst (deleteTodo 1 sample) = true
  /\ getTodo 1 (snd (deleteTodo 1 sample)) = None
  /\ getTodos 2 (snd (deleteTodo 1 sample)) = getTodos 2 sample.
Proof.
  assert (Hwf : JsMap.wf (todos sample)).
  { unfold JsMap.wf. vm_compute. repeat constructor; simpl; intuition discriminate. }
  pose proof (deleteTodo_removes_one 1 _ sample Hwf eq_refl) as H.
  cbv zeta in H. destruct H as [Htrue [Hnone [_ [_ Hother]]]].
  split; [exact Htrue|]. split; [exact Hnone|].
  apply Hother. vm_compute. discriminate.
Defined.

(** ** Removing a membership *)

Lemma distinct_images_inj {X Y : Type} (image : X -> Y) (xs : list X) (a b : X) :
  NoDup (map image xs) -> In a xs -> In b xs -> image a = image b -> a = b.
Proof.
  induction xs as [|x xs IH]; simpl; [tauto|].
  intros Hnd Ha Hb Heq. inversion Hnd as [|? ? Hnotin Hrest]; subst.
  destruct Ha as [->|Ha], Hb as [->|Hb]; try reflexivity.
  - exfalso. apply Hnotin. rewrite Heq. now apply in_map.
  - exfalso. apply Hnotin. rewrite <- Heq. now apply in_map.
  - now apply IH.
Qed.

Lemma entry_of_pair (s : MemStorage) (e1 e2 : Z * BoardMember.t) :
  store_inv s -> In e1 (boardMembers s) -> In e2 (boardMembers s) ->
  pair_of (snd e1) = pair_of (snd e2) -> e1 = e2.
Proof.
  intros Hinv H1 H2 Heq.
  apply (distinct_images_inj (fun e => pair_of (snd e)) (boardMembers s));
    try assumption.
  pose proof (inv_pairs s Hinv) as Hnd. unfold JsMap.values in Hnd.
  now rewrite map_map in Hnd.
Qed.

Lemma entry_of_key {V : Type} (m : JsMap.t V) (e1 e2 : Z * V) :
  JsMap.wf m -> In e1 m -> In e2 m -> fst e1 = fst e2 -> e1 = e2.
Proof.
  intros Hwf H1 H2 Heq. destruct e1 as [k1 v1], e2 as [k2 v2]. simpl in Heq.
  subst k2. pose proof (JsMapFacts.In_get _ _ _ Hwf H1).
  pose proof (JsMapFacts.In_get _ _ _ Hwf H2). congruence.
Qed.

Lemma remove_member_is_filter (b u k : Z) (m : BoardMember.t) (s : MemStorage) :
  store_inv s -> find_member_entry b u s = Some (k, m) ->
  JsMap.remove k (boardMembers s)
  = filter (fun e => negb (same_pair b u (snd e))) (boardMembers s).
Proof.
  intros Hinv Hfind. apply find_member_entry_In in Hfind.
  destruct Hfind as [Hin Hpair]. unfold JsMap.remove.
  apply filter_ext_in. intros e He. f_equal.
  destruct (Z.eqb_spec (fst e) k) as [Hk|Hk].
  - assert (e = (k, m))
      by (apply (entry_of_key (boardMembers s)); auto using inv_members_wf).
    subst e. symmetry. now apply same_pair_spec.
  - symmetry. apply not_true_is_false. intros Hsp. apply same_pair_spec in Hsp.
    assert (e = (k, m)) by (apply (entry_of_pair s); auto; simpl; congruence).
    subst e. now apply Hk.
Qed.

Lemma find_entry_none (b u : Z) (s : MemStorage) :
  find_member_entry b u s = None <-> memberships b u s = [].
Proof.
  unfold find_member_entry, memberships, JsMap.entries, JsMap.values.
  induction (boardMembers s) as [|e m IH]; simpl; [tauto|].
  destruct (same_pair b u (snd e)); [split; discriminate | exact IH].
Qed.

Lemma filter_pairs_values (p q : BoardMember.t -> bool) (m : JsMap.t BoardMember.t) :
  filter q (JsMap.values (filter (fun e => p (snd e)) m))
  = JsMap.values (filter (fun e => p (snd e) && q (snd e)) m).
Proof. now rewrite filter_values, filter_twice. Qed.

(** X8. In a reachable store [removeBoardMember] returns [false] and leaves
    the store alone when the pair has no membership.  Otherwise it returns
    [true], the pair has no membership left, and the member list of the
    board is the old list without the account's membership.  In both cases
    the memberships of every other pair and the member lists of every other
    board are unchanged. *)
Theorem removeBoardMember_removes (b u : Z) (s : MemStorage)
  (Hreach : reachable s) :
  let r := removeBoardMember b u s in
  match memberships b u s with
  | [] => r = (false, s)
  | _ :: _ =>
      fst r = true
      /\ memberships b u (snd r) = []
      /\ getBoardMembers b (snd r)
         = filter (fun m => negb (BoardMember.userId m =? u)) (getBoardMembers b s)
  end
  /\ (forall b' u', (b', u') <> (b, u) ->
        memberships b' u' (snd r) = memberships b' u' s)
  /\ (forall b', b' <> b -> getBoardMembers b' (snd r) = getBoardMembers b' s).
Proof.
  pose proof (reachable_inv s Hreach) as Hinv. cbv zeta.
  unfold removeBoardMember.
  destruct (find_member_entry b u s) as [[k m]|] eqn:Hfind.
  - pose proof (remove_member_is_filter b u k m s Hinv Hfind) as Hrem.
    assert (Hne : memberships b u s <> []).
    { intros Hnil. apply find_entry_none in Hnil. congruence. }
    cbn [fst snd JsMap.delete]. unfold memberships, getBoardMembers in *.
    cbn [boardMembers set_boardMembers]. rewrite Hrem.
    split; [|split].
    + destruct (filter (same_pair b u) (JsMap.values (boardMembers s)));
        [contradiction|].
      split; [reflexivity|]. split.
      * rewrite filter_pairs_values with (p := fun x => negb (same_pair b u x)).
        rewrite (filter_nothing _ (boardMembers s)); [reflexivity|].
        apply Forall_forall. intros e _. apply andb_negb_l.
      * rewrite filter_pairs_values with (p := fun x => negb (same_pair b u x)).
        rewrite (filter_values (member_on b)).
        rewrite (filter_values (fun x => negb (BoardMember.userId x =? u))).
        rewrite filter_twice. f_equal. apply filter_ext. intros e.
        unfold same_pair, member_on.
        destruct (BoardMember.boardId (snd e) =? b),
                 (BoardMember.userId (snd e) =? u); reflexivity.
    + intros b' u' Hpair.
      rewrite filter_pairs_values with (p := fun x => negb (same_pair b u x)).
      rewrite filter_values. f_equal. apply filter_ext. intros e.
      destruct (same_pair b' u' (snd e)) eqn:H'; [|apply andb_false_r].
      rewrite andb_true_r. apply negb_true_iff, not_true_is_false.
      intros H0. apply same_pair_spec in H', H0. congruence.
    + intros b' Hb'.
      rewrite filter_pairs_values with (p := fun x => negb (same_pair b u x)).
      rewrite filter_values. f_equal. apply filter_ext. intros e.
      unfold same_pair, member_on.
      destruct (Z.eqb_spec (BoardMember.boardId (snd e)) b) as [->|];
        destruct (Z.eqb_spec b b'); try congruence;
        destruct (BoardMember.boardId (snd e) =? b'),
                 (BoardMember.userId (snd e) =? u); reflexivity.
  - apply find_entry_none in Hfind. rewrite Hfind. cbn [snd]. auto.
Qed.

Lemma removeBoardMember_removes_witness :
  fst (removeBoardMember 1 2 sample) = true
  /\ memberships 1 2 (snd (removeBoardMember 1 2 sample)) = []
  /\ getBoardMembers 1 (snd (removeBoardMember 1 2 sample))
     = [BoardMember.mk 1 1 1 "admin"].
Proof.
  pose proof (removeBoardMember_removes 1 2 sample
                (reachable_run sample_ops init reach_init)) as H.
  cbv zeta in H. destruct H as [[Htrue [Hnone Hlist]] _].
  split; [exact Htrue|]. split; [exact Hnone|]. exact Hlist.
Defined.

(** X9. In a reachable store, adding a membership for a pair that has none
    and removing it again restores the membership map entry for entry; only
    the membership counter has moved on, so the handle is not given again. *)
Theorem add_then_remove_member (b u : Z) (role : option string) (s : MemStorage)
  (Hreach : reachable s) (Hnone : memberships b u s = []) :
  removeBoardMember b u (snd (addBoardMember (InsertBoardMember.mk b u role) s))
  = (true, set_boardMembers (boardMembers s) (currentBoardMemberId s + 1) s).
Proof.
  pose proof (reachable_inv s Hreach) as Hinv.
  pose proof Hnone as Hfind. unfold memberships in Hfind.
  apply filter_none_find in Hfind.
  rewrite (addBoardMember_new (InsertBoardMember.mk b u role) s Hinv Hfind).
  cbn [snd InsertBoardMember.boardId InsertBoardMember.userId
       InsertBoardMember.role].
  set (new := BoardMember.mk (currentBoardMemberId s) b u _).
  unfold removeBoardMember, find_member_entry, JsMap.entries.
  cbn [boardMembers set_boardMembers].
  assert (Hentry : find (fun e => same_pair b u (snd e)) (boardMembers s) = None).
  { apply find_entry_none in Hnone. exact Hnone. }
  rewrite (find_last _ _ (currentBoardMemberId s, new) Hentry)
    by (apply same_pair_spec; reflexivity).
  cbn [snd JsMap.delete currentBoardMemberId set_boardMembers users boards todos
       currentUserId currentBoardId currentTodoId boardMembers].
  f_equal. unfold set_boardMembers. f_equal.
  unfold JsMap.remove. rewrite filter_app. cbn [filter fst].
  rewrite Z.eqb_refl. cbn [negb]. rewrite app_nil_r.
  apply JsMapFacts.remove_absent, JsMapFacts.below_fresh.
  exact (inv_members_below s Hinv).
Qed.

Lemma add_then_remove_member_witness :
  memberships 2 1 sample = []
  /\ removeBoardMember 2 1
       (snd (addBoardMember (InsertBoardMember.mk 2 1 None) sample))
     = (true, set_boardMembers (boardMembers sample) 5 sample).
Proof.
  assert (Hnone : memberships 2 1 sample = []) by reflexivity.
  split; [exact Hnone|].
  exact (add_then_remove_member 2 1 None sample
           (reachable_run sample_ops init reach_init) Hnone).
Defined.

(** ** Changing a role *)

Lemma set_is_map (k : Z) (v : BoardMember.t) (m : JsMap.t BoardMember.t) :
  JsMap.wf m -> In k (JsMap.keys m) -> JsMap.set k v m = map (retag k v) m.
Proof.
  unfold JsMap.wf, JsMap.keys, retag.
  induction m as [|[k0 v0] m IH]; simpl; [tauto|].
  intros Hnd Hin. inversion Hnd as [|? ? Hnotin Hnd']; subst.
  destruct (Z.eqb_spec k0 k) as [->|Hne].
  - f_equal. symmetry. rewrite <- (map_id m) at 2. apply map_ext_in.
    intros e He. destruct (Z.eqb_spec (fst e) k) as [<-|]; [|reflexivity].
    exfalso. apply Hnotin. now apply in_map.
  - f_equal. apply IH; [assumption|]. destruct Hin; [contradiction|assumption].
Qed.

Lemma filter_retag (p : BoardMember.t -> bool) (k : Z) (old new : BoardMember.t)
  (m : JsMap.t BoardMember.t) :
  JsMap.wf m -> In (k, old) m -> p new = p old ->
  filter (fun e => p (snd e)) (map (retag k new) m)
  = map (retag k new) (filter (fun e => p (snd e)) m).
Proof.
  intros Hwf Hin Hp.
  assert (Hsame : forall e, In e m -> p (snd (retag k new e)) = p (snd e)).
  { intros e He. unfold retag. destruct (Z.eqb_spec (fst e) k) as [Hk|]; [|reflexivity].
    assert (e = (k, old)) by (apply (entry_of_key m); auto). subst e. exact Hp. }
  clear Hin Hwf. induction m as [|e m IH]; simpl; [reflexivity|].
  rewrite (Hsame e) by now left.
  destruct (p (snd e)); simpl; rewrite IH; auto; intros; apply Hsame; now right.
Qed.

Lemma find_entry_value {V : Type} (p : V -> bool) (m : JsMap.t V) (k : Z) (v : V) :
  find (fun e => p (snd e)) m = Some (k, v) -> find p (JsMap.values m) = Some v.
Proof.
  unfold JsMap.values. induction m as [|e m IH]; simpl; [discriminate|].
  destruct (p (snd e)); [|exact IH]. now intros [= ->].
Qed.

(** X10. In a reachable store [updateBoardMemberRole] returns [undefined]
    and leaves the store alone when the pair has no membership.  Otherwise
    it returns the pair's membership with the new role and the same [id],
    board and account, and that is then the pair's only membership.  In both
    cases the handles in use, the memberships of every other pair and the
    accounts on every board's member list are as before. *)
Theorem updateBoardMemberRole_retags (b u : Z) (role : string) (s : MemStorage)
  (Hreach : reachable s) :
  let r := updateBoardMemberRole b u role s in
  match memberships b u s with
  | [] => r = (None, s)
  | old :: _ =>
      let new := BoardMember.mk (BoardMember.id old) (BoardMember.boardId old)
                                (BoardMember.userId old) role in
      fst r = Some new /\ memberships b u (snd r) = [new]
  end
  /\ handles KBoardMember (snd r) = handles KBoardMember s
  /\ (forall b' u', (b', u') <> (b, u) ->
        memberships b' u' (snd r) = memberships b' u' s)
  /\ (forall b',
        map BoardMember.userId (getBoardMembers b' (snd r))
        = map BoardMember.userId (getBoardMembers b' s)).
Proof.
  pose proof (reachable_inv s Hreach) as Hinv. cbv zeta.
  pose proof (inv_members_wf s Hinv) as Hwf.
  unfold updateBoardMemberRole.
  destruct (find_member_entry b u s) as [[k old]|] eqn:Hfind.
  - pose proof Hfind as Hentry. apply find_member_entry_In in Hentry.
    destruct Hentry as [Hin Hpair].
    assert (Hold : memberships b u s = [old]).
    { unfold memberships. apply unique_member; [exact (inv_pairs s Hinv)|].
      exact (find_entry_value _ _ _ _ Hfind). }
    set (new := BoardMember.mk (BoardMember.id old) (BoardMember.boardId old)
                               (BoardMember.userId old) role).
    assert (Hset : JsMap.set k new (boardMembers s)
                   = map (retag k new) (boardMembers s)).
    { apply set_is_map; [assumption | exact (entry_key k old _ Hin)]. }
    rewrite Hold. cbn [fst snd handles]. unfold memberships, getBoardMembers.
    cbn [boardMembers set_boardMembers]. fold new.
    split; [split; [reflexivity|] | split; [|split]].
    + rewrite Hset, filter_values.
      rewrite (filter_retag (same_pair b u) k old new) by
        (try assumption; unfold same_pair; reflexivity).
      unfold memberships in Hold. rewrite filter_values in Hold.
      assert (Hmem : In (k, old)
                        (filter (fun e => same_pair b u (snd e)) (boardMembers s))).
      { apply filter_In. split; [assumption|]. now apply same_pair_spec. }
      destruct (filter (fun e => same_pair b u (snd e)) (boardMembers s))
        as [|e [|e' l]]; try discriminate.
      destruct Hmem as [->|[]]. unfold retag. cbn. now rewrite Z.eqb_refl.
    + apply JsMapFacts.set_present. exact (entry_key k old _ Hin).
    + intros b' u' Hne. rewrite Hset, !filter_values.
      rewrite (filter_retag (same_pair b' u') k old new) by
        (try assumption; unfold same_pair; reflexivity).
      f_equal. rewrite <- (map_id (filter _ (boardMembers s))) at 2.
      apply map_ext_in. intros e He. apply filter_In in He.
      destruct He as [He Hsp]. unfold retag.
      destruct (Z.eqb_spec (fst e) k) as [Hk|]; [|reflexivity].
      assert (e = (k, old)) by (apply (entry_of_key (boardMembers s)); auto).
      subst e. apply same_pair_spec in Hsp. simpl in Hsp. congruence.
    + intros b'. rewrite Hset, !filter_values.
      rewrite (filter_retag (member_on b') k old new) by
        (try assumption; unfold member_on; reflexivity).
      unfold JsMap.values. rewrite !map_map. apply map_ext_in.
      intros e He. apply filter_In in He. destruct He as [He _]. unfold retag.
      destruct (Z.eqb_spec (fst e) k) as [Hk|]; [|reflexivity].
      assert (e = (k, old)) by (apply (entry_of_key (boardMembers s)); auto).
      subst e. reflexivity.
  - apply find_entry_none in Hfind. rewrite Hfind. cbn [snd]. auto.
Qed.

Lemma updateBoardMemberRole_retags_witness :
  fst (updateBoardMemberRole 1 2 "viewer" sample)
  = Some (BoardMember.mk 3 1 2 "viewer")
  /\ memberships 1 2 (snd (updateBoardMemberRole 1 2 "viewer" sample))
     = [BoardMember.mk 3 1 2 "viewer"]
  /\ handles KBoardMember (snd (updateBoardMemberRole 1 2 "viewer" sample))
     = [1; 2; 3].
Proof.
  pose proof (updateBoardMemberRole_retags 1 2 "viewer" sample
                (reachable_run sample_ops init reach_init)) as H.
  cbv zeta in H. destruct H as [[Hret Hone] [Hkeys _]].
  split; [exact Hret|]. split; [exact Hone|]. exact Hkeys.
Defined.

(** ** Creating a board and what the lists show *)

Lemma addBoardMember_member (im : InsertBoardMember.t) (s : MemStorage) :
  let r := addBoardMember im s in
  In (fst r) (JsMap.values (boardMembers (snd r)))
  /\ pair_of (fst r)
     = (InsertBoardMember.boardId im, InsertBoardMember.userId im).
Proof.
  cbv zeta. unfold addBoardMember.
  destruct (find _ _) as [x|] eqn:Hfind; cbn [fst snd].
  - apply find_some in Hfind. now rewrite same_pair_spec in Hfind.
  - cbn [boardMembers set_boardMembers]. split; [|reflexivity].
    apply value_entry. exists (currentBoardMemberId s).
    apply JsMapFacts.get_In, JsMapFacts.get_set_eq.
Qed.

(** X11. Right after [createBoard], in any store, the new board is on its
    creator's board list, as an entry that carries the board and a member
    count of at least one. *)
Theorem created_board_is_listed (d : InsertBoard.t) (now : Z) (s : MemStorage) :
  let board := fst (createBoard d now s) in
  let s' := snd (createBoard d now s) in
  In (BoardWithMemberCount.mk (Some board)
        (todoCount_of (Board.id board) s') (memberCount_of (Board.id board) s'))
     (getBoardsByUser (InsertBoard.createdBy d) s')
  /\ (1 <= memberCount_of (Board.id board) s')%nat.
Proof.
  cbv zeta. unfold createBoard.
  set (board := Board.mk (currentBoardId s) _ _ _ _ now).
  set (s1 := set_boards _ _ s).
  set (im := InsertBoardMember.mk _ _ _).
  pose proof (addBoardMember_frame im s1) as (_ & Hb & _).
  pose proof (addBoardMember_member im s1) as [Hin Hpair].
  destruct (addBoardMember im s1) as [r s2]. cbn [fst snd] in *.
  assert (Hget : JsMap.get (currentBoardId s) (boards s2) = Some board).
  { rewrite Hb. unfold s1. cbn [boards set_boards].
    apply JsMapFacts.get_set_eq. }
  split.
  - unfold getBoardsByUser.
    change (Board.id board) with (currentBoardId s). rewrite <- Hget.
    apply (in_map (fun boardId =>
                     BoardWithMemberCount.mk (JsMap.get boardId (boards s2))
                       (todoCount_of boardId s2) (memberCount_of boardId s2))).
    unfold JsSet.to_list, boardIds_of. apply set_add_all_In. left.
    apply set_add_all_In. right.
    change (currentBoardId s) with (Board.id board). apply in_map.
    apply filter_In. split.
    + apply value_entry. exists (currentBoardId s). now apply JsMapFacts.get_In.
    + unfold created_by. cbn. apply Z.eqb_refl.
  - unfold memberCount_of.
    assert (Hon : In r (filter (member_on (Board.id board))
                               (JsMap.values (boardMembers s2)))).
    { apply filter_In. split; [assumption|]. unfold member_on.
      unfold pair_of in Hpair. injection Hpair as Hbid _. cbn in *.
      rewrite Hbid. apply Z.eqb_refl. }
    destruct (filter _ _); [contradiction | simpl; lia].
Qed.

Lemma filter_nil_all {A : Type} (p : A -> bool) (l : list A) :
  filter p l = [] -> forall x, In x l -> p x = false.
Proof.
  intros Hnil x Hx. apply not_true_is_false. intros Hp.
  assert (In x (filter p l)) by (apply filter_In; tauto).
  rewrite Hnil in *. contradiction.
Qed.

Lemma filter_keeps_all {A : Type} (p : A -> bool) (l : list A) :
  (forall x, In x l -> p x = true) -> filter p l = l.
Proof.
  induction l as [|x l IH]; simpl; intros H; [reflexivity|].
  rewrite (H x) by now left. f_equal. apply IH. intros y Hy. apply H. now right.
Qed.

Lemma filter_off_board {V : Type} (test : V -> bool) (m : JsMap.t V) :
  filter test (JsMap.values m) = [] ->
  filter (fun e => negb (test (snd e))) m = m.
Proof.
  intros Hnil. apply filter_keeps_all. intros e He.
  apply negb_true_iff, (filter_nil_all _ _ Hnil). unfold JsMap.values.
  now apply in_map.
Qed.

(** X12. In a reachable store in which no membership and no todo names the
    next board handle, creating a board and deleting it again restores the
    accounts, boards, memberships and todos entry for entry; only the board
    counter and the membership counter have moved on. *)
Theorem create_then_delete_board (d : InsertBoard.t) (now : Z) (s : MemStorage)
  (Hreach : reachable s)
  (Hmembers : getBoardMembers (currentBoardId s) s = [])
  (Htodos : getTodos (currentBoardId s) s = []) :
  deleteBoard (Board.id (fst (createBoard d now s))) (snd (createBoard d now s))
  = (true,
     mkStore (users s) (boards s) (boardMembers s) (todos s)
             (currentUserId s) (currentBoardId s + 1)
             (currentBoardMemberId s + 1) (currentTodoId s)).
Proof.
  pose proof (reachable_inv s Hreach) as Hinv.
  unfold getBoardMembers in Hmembers.
  rewrite getTodos_map in Htodos. apply map_eq_nil in Htodos.
  unfold createBoard.
  set (board := Board.mk (currentBoardId s) _ _ _ _ now).
  set (s1 := set_boards _ _ s).
  set (im := InsertBoardMember.mk _ _ _).
  assert (Hinv1 : store_inv s1) by now apply createBoard_mid_inv.
  assert (Hfind : find (same_pair (InsertBoardMember.boardId im)
                                  (InsertBoardMember.userId im))
                       (JsMap.values (boardMembers s1)) = None).
  { apply filter_none_find. apply filter_nothing, Forall_forall.
    intros m Hm. unfold same_pair.
    change (boardMembers s1) with (boardMembers s) in Hm.
    pose proof (filter_nil_all _ _ Hmembers m Hm) as Hoff.
    unfold member_on in Hoff. cbn. now rewrite Hoff. }
  pose proof (addBoardMember_inv im s1 Hinv1) as Hinv2.
  rewrite (addBoardMember_new im s1 Hinv1 Hfind) in *. cbn [fst snd] in *.
  cbv zeta in Hinv2. cbn [snd] in Hinv2.
  set (s2 := set_boardMembers _ _ s1) in *.
  assert (Hget : JsMap.get (currentBoardId s) (boards s2) = Some board).
  { unfold s2, s1. cbn [boards set_boards set_boardMembers].
    apply JsMapFacts.get_set_eq. }
  cbn [Board.id board].
  rewrite (deleteBoard_present (currentBoardId s) s2 board Hget).
  rewrite (delete_where_wf _ _ (inv_members_wf s2 Hinv2)).
  rewrite (delete_where_wf _ _ (inv_todos_wf s2 Hinv2)).
  unfold s2, s1.
  cbn [users boards boardMembers todos currentUserId currentBoardId
       currentBoardMemberId currentTodoId set_boards set_boardMembers].
  f_equal. f_equal.
  - rewrite JsMapFacts.set_fresh
      by (apply JsMapFacts.below_fresh; exact (inv_boards_below s Hinv)).
    unfold JsMap.remove. rewrite filter_app. cbn [filter fst].
    rewrite Z.eqb_refl. cbn [negb]. rewrite app_nil_r.
    apply JsMapFacts.remove_absent, JsMapFacts.below_fresh.
    exact (inv_boards_below s Hinv).
  - rewrite filter_app. cbn [filter snd im InsertBoardMember.boardId].
    unfold member_on at 2. cbn [BoardMember.boardId].
    rewrite Z.eqb_refl. cbn [negb]. rewrite app_nil_r.
    now apply filter_off_board.
  - now apply filter_off_board.
Qed.

Lemma create_then_delete_board_witness :
  deleteBoard 3 (snd (createBoard (InsertBoard.mk "Tmp" None None 1) 7000 sample))
  = (true,
     mkStore (users sample) (boards sample) (boardMembers sample) (todos sample)
             3 4 5 3).
Proof.
  exact (create_then_delete_board (InsertBoard.mk "Tmp" None None 1) 7000 sample
           (reachable_run sample_ops init reach_init) eq_refl eq_refl).
Defined.

Lemma deleteBoard_gone (id : Z) (s : MemStorage) :
  getBoard id (snd (deleteBoard id s)) = None.
Proof.
  unfold getBoard. destruct (JsMap.get id (boards s)) as [board|] eqn:Hget.
  - rewrite (deleteBoard_present id s board Hget). cbn [snd boards].
    apply JsMapFacts.get_remove_eq.
  - now rewrite (deleteBoard_absent id s Hget).
Qed.

Lemma deleteBoard_keyed (id : Z) (s : MemStorage) :
  boards_keyed s -> boards_keyed (snd (deleteBoard id s)).
Proof.
  intros Hk. pose proof (step_keeps_keyed (OpDeleteBoard id) s Hk I) as H.
  unfold step in H. cbn [exec] in H. now destruct (deleteBoard id s).
Qed.

(** X13. When every board is stored under its own [id], after
    [deleteBoard] no entry of the full board list and no entry of any
    account's board list carries a board with the deleted handle. *)
Theorem deleted_board_is_not_listed (id : Z) (s : MemStorage)
  (Hkeyed : boards_keyed s) :
  let s' := snd (deleteBoard id s) in
  forall e b,
    BoardWithMemberCount.board e = Some b ->
    (In e (getBoards s') \/ exists userId, In e (getBoardsByUser userId s')) ->
    Board.id b <> id.
Proof.
  cbv zeta. intros e b Hb Hin.
  pose proof (deleteBoard_keyed id s Hkeyed) as Hk'.
  pose proof (deleteBoard_gone id s) as Hgone.
  set (s' := snd (deleteBoard id s)) in *.
  assert (Hstored : getBoard (Board.id b) s' = Some b).
  { destruct Hin as [Hin|[userId Hin]].
    - unfold getBoards in Hin. apply in_map_iff in Hin.
      destruct Hin as [b0 [<- Hin]]. cbn in Hb. injection Hb as ->.
      now apply (keyed_board s' (Board.id b) b Hk').
    - unfold getBoardsByUser in Hin. apply in_map_iff in Hin.
      destruct Hin as [h [<- _]]. cbn in Hb.
      pose proof (proj2 (keyed_board s' h b Hk') Hb) as [_ Hid].
      now rewrite Hid. }
  intros Heq. rewrite Heq in Hstored. congruence.
Qed.

Lemma deleted_board_is_not_listed_witness :
  forallb (fun e => match BoardWithMemberCount.board e with
                    | Some b => negb (Board.id b =? 1)
                    | None => true
                    end)
          (getBoardsByUser 2 (snd (deleteBoard 1 sample))) = true.
Proof.
  apply forallb_forall. intros e He.
  destruct (BoardWithMemberCount.board e) as [b|] eqn:Hb; [|reflexivity].
  apply negb_true_iff, Z.eqb_neq.
  apply (deleted_board_is_not_listed 1 sample
           (run_keeps_keyed sample_ops init init_keyed
              ltac:(repeat constructor)) e b Hb).
  right. now exists 2.
Defined.

(** ** The full board list and the member view *)

(** X14. [getBoards] has one entry per stored board, in storage order; each
    entry carries its board, and its two counts are the lengths of what
    [getTodos] and [getBoardMembers] return for the board's [id].  When
    every board is stored under its own [id], every entry of an account's
    board list that carries a board is one of these entries, counts
    included. *)
Theorem getBoards_covers_lists (s : MemStorage) (Hkeyed : boards_keyed s) :
  map BoardWithMemberCount.board (getBoards s)
  = map Some (JsMap.values (boards s))
  /\ (forall e b,
        In e (getBoards s) -> BoardWithMemberCount.board e = Some b ->
        BoardWithMemberCount.todoCount e = List.length (getTodos (Board.id b) s)
        /\ BoardWithMemberCount.memberCount e
           = List.length (getBoardMembers (Board.id b) s))
  /\ (forall userId e b,
        In e (getBoardsByUser userId s) ->
        BoardWithMemberCount.board e = Some b -> In e (getBoards s)).
Proof.
  unfold getBoards. split; [|split].
  - rewrite map_map. reflexivity.
  - intros e b Hin Hb. apply in_map_iff in Hin. destruct Hin as [b0 [<- _]].
    cbn in *. injection Hb as ->. unfold todoCount_of, memberCount_of.
    rewrite getTodos_map, length_map. split; reflexivity.
  - intros userId e b Hin Hb. unfold getBoardsByUser in Hin.
    apply in_map_iff in Hin. destruct Hin as [h [<- _]]. cbn in Hb.
    pose proof (proj2 (keyed_board s h b Hkeyed) Hb) as [Hstored Hid].
    rewrite Hb, <- Hid.
    exact (in_map (fun board =>
                     BoardWithMemberCount.mk (Some board)
                       (todoCount_of (Board.id board) s)
                       (memberCount_of (Board.id board) s))
                  _ b Hstored).
Qed.

Lemma getBoards_covers_lists_witness :
  List.length (getBoards sample) = 2%nat
  /\ forallb (fun e => match BoardWithMemberCount.board e with
                       | Some b =>
                           Nat.eqb (BoardWithMemberCount.todoCount e)
                                   (List.length (getTodos (Board.id b) sample))
                       | None => false
                       end)
             (getBoards sample) = true.
Proof.
  pose proof (getBoards_covers_lists sample
                (run_keeps_keyed sample_ops init init_keyed
                   ltac:(repeat constructor))) as [Hall [Hcounts _]].
  split.
  - rewrite <- (length_map BoardWithMemberCount.board), Hall. reflexivity.
  - apply forallb_forall. intros e He.
    destruct (BoardWithMemberCount.board e) as [b|] eqn:Hb.
    + apply Nat.eqb_eq. exact (proj1 (Hcounts e b He Hb)).
    + apply (in_map BoardWithMemberCount.board) in He. rewrite Hall, Hb in He.
      apply in_map_iff in He. destruct He as [x [Hx _]]. discriminate.
Defined.

(** X15. [getBoardWithMembers] is [undefined] exactly when the board is
    absent.  Otherwise it carries the stored board and one member slot per
    membership on the board's member list, in the same order; in a reachable
    store a filled slot holds the account whose [id] is the membership's
    [userId], and a slot is empty exactly when no account is stored under
    that [userId]. *)
Theorem getBoardWithMembers_resolves (id : Z) (s : MemStorage)
  (Hreach : reachable s) :
  match getBoardWithMembers id s with
  | None => getBoard id s = None
  | Some view =>
      getBoard id s = Some (BoardWithMembers.board view)
      /\ Forall2 (fun member slot =>
                    slot = getUser (BoardMember.userId member) s
                    /\ forall account, slot = Some account ->
                         User.id account = BoardMember.userId member)
                 (getBoardMembers id s) (BoardWithMembers.members view)
  end.
Proof.
  unfold getBoardWithMembers, getBoard, getBoardMembers.
  destruct (JsMap.get id (boards s)) as [board|]; [|reflexivity].
  cbn [BoardWithMembers.board BoardWithMembers.members]. split; [reflexivity|].
  rewrite map_map.
  induction (filter (member_on id) (JsMap.values (boardMembers s)))
    as [|m l IH]; simpl; constructor; [|exact IH].
  split; [reflexivity|]. intros account Hslot.
  unfold getUser in Hslot. apply JsMapFacts.get_In in Hslot.
  destruct (reachable_entities_keyed s Hreach) as [Hk _].
  unfold accounts_keyed, JsMap.entries in Hk. rewrite Forall_forall in Hk.
  exact (Hk _ Hslot).
Qed.

Lemma getBoardWithMembers_resolves_witness :
  match getBoardWithMembers 1 sample with
  | None => getBoard 1 sample = None
  | Some view =>
      getBoard 1 sample = Some (BoardWithMembers.board view)
      /\ Forall2 (fun member slot =>
                    slot = getUser (BoardMember.userId member) sample
                    /\ forall account, slot = Some account ->
                         User.id account = BoardMember.userId member)
                 (getBoardMembers 1 sample) (BoardWithMembers.members view)
  end.
Proof.
  exact (getBoardWithMembers_resolves 1 sample
           (reachable_run sample_ops init reach_init)).
Defined.

(** ** What an update of a todo leaves alone *)

(** X16. When the todo exists, [updateTodo] keeps the set of todo handles
    and every other todo as they were, and an update that carries no
    property at all stores the old todo with only [updatedAt] replaced by
    the clock reading of the call. *)
Theorem updateTodo_touches_one (id : Z) (u : PartialTodo.t) (now : Z)
  (old : Todo.t) (s : MemStorage) (Hget : getTodo id s = Some old) :
  handles KTodo (snd (updateTodo id u now s)) = handles KTodo s
  /\ (forall id', id' <> id ->
        getTodo id' (snd (updateTodo id u now s)) = getTodo id' s)
  /\ getTodo id (snd (updateTodo id PartialTodo.none now s))
     = Some (Todo.mk (Todo.id old) (Todo.boardId old) (Todo.title old)
                     (Todo.description old) (Todo.dueDate old)
                     (Todo.priority old) (Todo.status old)
                     (Todo.assignedTo old) (Todo.createdBy old)
                     (Todo.createdAt old) now).
Proof.
  unfold getTodo in *. unfold updateTodo. rewrite Hget.
  cbn [snd handles todos set_todos]. split; [|split].
  - apply JsMapFacts.set_present.
    exact (entry_key id old _ (JsMapFacts.get_In _ _ _ Hget)).
  - intros id' Hne. apply JsMapFacts.get_set_ne. congruence.
  - apply JsMapFacts.get_set_eq.
Qed.

Lemma updateTodo_touches_one_witness :
  handles KTodo (snd (updateTodo 2 PartialTodo.none 9000 sample)) = [1; 2]
  /\ getTodo 1 (snd (updateTodo 2 PartialTodo.none 9000 sample))
     = getTodo 1 sample
  /\ option_map Todo.updatedAt
       (getTodo 2 (snd (updateTodo 2 PartialTodo.none 9000 sample)))
     = Some 9000.
Proof.
  pose proof (updateTodo_touches_one 2 PartialTodo.none 9000 _ sample eq_refl)
    as [Hkeys [Hother Hsame]].
  split; [exact Hkeys|]. split; [apply Hother; discriminate|].
  rewrite Hsame. reflexivity.
Defined.

Lemma createUser_then_lookup_fresh (d : InsertUser.t) (s : MemStorage) :
  reachable s ->
  getUserByPhoneNumber (InsertUser.phoneNumber d) s = None ->
  getUserByPhoneNumber (InsertUser.phoneNumber d) (snd (createUser d s))
  = Some (fst (createUser d s)).
Proof.
  intros Hreach Hnone. unfold getUserByPhoneNumber in *.
  rewrite (createUser_appends d s Hreach). unfold JsMap.values in *.
  rewrite map_app. cbn [map snd]. rewrite find_snoc, Hnone.
  unfold createUser at 1. cbn [fst User.phoneNumber].
  now rewrite String.eqb_refl.
Qed.

Lemma lookup_after_createUser (d : InsertUser.t) (s : MemStorage) :
  reachable s ->
  getUserByPhoneNumber (InsertUser.phoneNumber d) (snd (createUser d s))
  = match getUserByPhoneNumber (InsertUser.phoneNumber d) s with
    | Some older => Some older
    | None => Some (fst (createUser d s))
    end.
Proof.
  intros Hreach. destruct (getUserByPhoneNumber _ s) as [older|] eqn:Hfound.
  - unfold getUserByPhoneNumber in *.
    rewrite (createUser_appends d s Hreach). unfold JsMap.values in *.
    rewrite map_app. cbn [map snd]. now rewrite find_snoc, Hfound.
  - now apply createUser_then_lookup_fresh.
Qed.

Lemma known_phone (phone : string) (u : User.t) (s : MemStorage) :
  getUserByPhoneNumber phone s = Some u -> In phone (phones s).
Proof.
  unfold getUserByPhoneNumber, phones. intros Hfound.
  apply find_some in Hfound. destruct Hfound as [Hin Heq].
  apply String.eqb_eq in Heq. subst phone. now apply in_map.
Qed.

(** * Properties of the handlers *)

Section HandlerFacts.
Variable hashPassword : string -> string.
Variable comparePassword : string -> string -> bool.

Lemma phones_after_createUser (d : InsertUser.t) (s : MemStorage) :
  reachable s ->
  phones (snd (createUser d s)) = phones s ++ [InsertUser.phoneNumber d].
Proof.
  intros Hreach. unfold phones. rewrite (createUser_appends d s Hreach).
  unfold JsMap.values. now rewrite !map_app.
Qed.

Lemma unknown_phone (phone : string) (s : MemStorage) :
  getUserByPhoneNumber phone s = None -> ~ In phone (phones s).
Proof.
  unfold getUserByPhoneNumber, phones. intros Hnone Hin.
  apply in_map_iff in Hin. destruct Hin as [u [Hu Hin]].
  pose proof (find_none _ _ Hnone u Hin) as Hf. cbn in Hf.
  apply String.eqb_neq in Hf. contradiction.
Qed.

(** X17. In a reachable store the register handler replies 409 and leaves
    the store alone when an account with the phone number exists at the
    time it looks.  Otherwise it replies 201 with the new account, password
    left out; the account is stored under its [id] with the phone number
    and login name sent and with the hash of the password sent.  A lookup
    by the phone number then returns the new account when no account with
    the number was stored while the handler awaited the hash, and the
    account that was stored in that time otherwise. *)
Theorem register_outcome (d : InsertUser.t) (during : list Op) (s : MemStorage)
  (Hreach : reachable s) :
  let r := register hashPassword (Some d) during s in
  match getUserByPhoneNumber (InsertUser.phoneNumber d) s with
  | Some _ => status (fst r) = 409 /\ snd r = s
  | None =>
      status (fst r) = 201
      /\ exists user,
           payload (fst r) = JPublicUser (without_password user)
           /\ getUser (User.id user) (snd r) = Some user
           /\ User.password user = hashPassword (InsertUser.password d)
           /\ User.username user = InsertUser.username d
           /\ User.phoneNumber user = InsertUser.phoneNumber d
           /\ getUserByPhoneNumber (InsertUser.phoneNumber d) (snd r)
              = match getUserByPhoneNumber (InsertUser.phoneNumber d)
                                           (run during s) with
                | Some other => Some other
                | None => Some user
                end
  end.
Proof.
  cbv zeta. unfold register.
  destruct (getUserByPhoneNumber (InsertUser.phoneNumber d) s) eqn:Hfound.
  - split; reflexivity.
  - set (hashed := InsertUser.mk _ _ _ _ _).
    pose proof (lookup_after_createUser hashed (run during s)
                  (reachable_run during s Hreach)) as Hlook.
    assert (Hstored : getUser (User.id (fst (createUser hashed (run during s))))
                              (snd (createUser hashed (run during s)))
                      = Some (fst (createUser hashed (run during s)))).
    { unfold createUser, getUser. cbn [fst snd users set_users User.id].
      apply JsMapFacts.get_set_eq. }
    assert (Hfields : User.password (fst (createUser hashed (run during s)))
                      = hashPassword (InsertUser.password d)
                      /\ User.username (fst (createUser hashed (run during s)))
                         = InsertUser.username d
                      /\ User.phoneNumber (fst (createUser hashed (run during s)))
                         = InsertUser.phoneNumber d)
      by (repeat split).
    destruct (createUser hashed (run during s)) as [user s'].
    cbn [fst snd status payload] in *. split; [reflexivity|].
    exists user. split; [reflexivity|]. split; [exact Hstored|].
    destruct Hfields as (Hp & Hn & Hph). repeat split; assumption.
Qed.

(** X18. Suppose that, in a reachable store, the phone number is unknown
    when the register handler looks it up, and that the stored phone numbers
    are pairwise distinct at the moment the handler calls [createUser].
    Then they are pairwise distinct afterwards exactly when no account with
    the number was stored while the handler awaited the hash: the check
    guards against numbers stored before it, not against a registration of
    the same number that runs in between. *)
Theorem register_keeps_phones_distinct (d : InsertUser.t) (during : list Op)
  (s : MemStorage) (Hreach : reachable s)
  (Hnew : getUserByPhoneNumber (InsertUser.phoneNumber d) s = None)
  (Hdistinct : NoDup (phones (run during s))) :
  NoDup (phones (snd (register hashPassword (Some d) during s)))
  <-> getUserByPhoneNumber (InsertUser.phoneNumber d) (run during s) = None.
Proof.
  unfold register. rewrite Hnew.
  set (hashed := InsertUser.mk _ _ _ _ _).
  pose proof (phones_after_createUser hashed (run during s)
                (reachable_run during s Hreach)) as Hphones.
  destruct (createUser hashed (run during s)) as [user s']. cbn [snd] in *.
  rewrite Hphones. cbn [hashed InsertUser.phoneNumber]. split.
  - intros Hnd.
    destruct (getUserByPhoneNumber (InsertUser.phoneNumber d) (run during s))
      as [other|] eqn:Hother; [|reflexivity].
    apply known_phone in Hother. exfalso.
    apply NoDup_remove_2 in Hnd. rewrite app_nil_r in Hnd. contradiction.
  - intros Hquiet.
    apply NoDup_app; [assumption | repeat constructor; simpl; tauto |].
    intros phone Hin [<-|[]]. revert Hin. now apply unknown_phone.
Qed.

(** X19. Suppose the password check accepts every password against its own
    hash.  Then in a reachable store, a registration with a non-empty
    password and a non-empty phone number that is unknown when the handler
    looks it up, and that no other request stores while the handler awaits
    the hash, is answered 201, and a login with that phone number and that
    password on the store it leaves is answered 200 with the very body the
    registration was answered with. *)
Theorem login_after_register (d : InsertUser.t) (during : list Op)
  (s : MemStorage)
  (Hbcrypt : forall p, comparePassword p (hashPassword p) = true)
  (Hreach : reachable s)
  (Hnew : getUserByPhoneNumber (InsertUser.phoneNumber d) s = None)
  (Hquiet : getUserByPhoneNumber (InsertUser.phoneNumber d) (run during s)
            = None)
  (Hphone : InsertUser.phoneNumber d <> ""%string)
  (Hpassword : InsertUser.password d <> ""%string) :
  let r := register hashPassword (Some d) during s in
  status (fst r) = 201
  /\ login comparePassword (Some (InsertUser.phoneNumber d))
           (Some (InsertUser.password d)) (snd r)
     = mkReply 200 (payload (fst r)).
Proof.
  cbv zeta. unfold register. rewrite Hnew.
  set (hashed := InsertUser.mk _ _ _ _ _).
  pose proof (createUser_then_lookup_fresh hashed (run during s)
                (reachable_run during s Hreach) Hquiet) as Hlook.
  assert (Hpw : User.password (fst (createUser hashed (run during s)))
                = hashPassword (InsertUser.password d)) by reflexivity.
  destruct (createUser hashed (run during s)) as [user s'].
  cbn [fst snd status payload] in *.
  split; [reflexivity|]. unfold login, missing, truthy_string.
  destruct (String.eqb_spec (InsertUser.phoneNumber d) ""); [contradiction|].
  destruct (String.eqb_spec (InsertUser.password d) ""); [contradiction|].
  cbn [negb text]. cbn [hashed InsertUser.phoneNumber] in Hlook.
  now rewrite Hlook, Hpw, Hbcrypt.
Qed.

(** X20. The login handler answers 200 exactly when the request carries a
    non-empty phone number and a non-empty password, an account with that
    phone number is stored, and the password check accepts the password
    against the account's stored one.  A request without a password is
    answered 400 in every store. *)
Theorem login_succeeds_iff (phoneNumber password : option string)
  (s : MemStorage) :
  (status (login comparePassword phoneNumber password s) = 200 <->
   missing phoneNumber = false /\ missing password = false
   /\ exists user,
        getUserByPhoneNumber (text phoneNumber) s = Some user
        /\ comparePassword (text password) (User.password user) = true)
  /\ status (login comparePassword phoneNumber None s) = 400.
Proof.
  unfold login. split.
  - destruct (missing phoneNumber); [cbn; split; [discriminate | intros [? _]; discriminate]|].
    destruct (missing password); [cbn; split; [discriminate | intros [_ [? _]]; discriminate]|].
    destruct (getUserByPhoneNumber (text phoneNumber) s) as [user|].
    + destruct (comparePassword (text password) (User.password user)) eqn:Hc; cbn.
      * split; [intros _|reflexivity]. repeat split. now exists user.
      * split; [discriminate|]. intros [_ [_ [u [[= <-] Hu]]]]. congruence.
    + cbn. split; [discriminate|]. intros [_ [_ [u [Hu _]]]]. discriminate.
  - destruct (missing phoneNumber); reflexivity.
Qed.

Lemma In_set {V : Type} (k : Z) (v : V) (m : JsMap.t V) (e : Z * V) :
  In e (JsMap.set k v m) -> e = (k, v) \/ In e m.
Proof.
  induction m as [|[k0 v0] m IH]; simpl.
  - intros [<-|[]]. now left.
  - destruct (k0 =? k); simpl; intros [<-|H]; auto.
    destruct (IH H); auto.
Qed.

(** X21. The role handler changes the store only when it answers 200, and
    then the role it was sent is one of [viewer], [editor], [admin]: every
    membership in the store it leaves either was in the store before or has
    one of these three roles. *)
Theorem patchMemberRole_guards_roles (boardId userId : option Z)
  (role : option string) (s : MemStorage) :
  let r := patchMemberRole boardId userId role s in
  (status (fst r) <> 200 -> snd r = s)
  /\ (status (fst r) = 200 -> valid_role (text role) = true)
  /\ forall member,
       In member (JsMap.values (boardMembers (snd r))) ->
       In member (JsMap.values (boardMembers s))
       \/ valid_role (BoardMember.role member) = true.
Proof.
  cbv zeta. unfold patchMemberRole.
  destruct boardId as [b|], userId as [u|];
    try (cbn; repeat split; [discriminate | tauto]).
  destruct (missing role || negb (valid_role (text role))) eqn:Hguard;
    [cbn; repeat split; [discriminate | tauto]|].
  apply orb_false_iff in Hguard. destruct Hguard as [_ Hvalid].
  apply negb_false_iff in Hvalid.
  unfold updateBoardMemberRole.
  destruct (find_member_entry b u s) as [[k m]|]; cbn [fst snd status].
  - split; [congruence|]. split; [auto|].
    intros member Hin. cbn [boardMembers set_boardMembers] in Hin.
    apply value_entry in Hin. destruct Hin as [k' Hin].
    apply In_set in Hin. destruct Hin as [[= _ ->]|Hin].
    + right. exact Hvalid.
    + left. apply value_entry. now exists k'.
  - split; [reflexivity|]. split; [discriminate | tauto].
Qed.
(** X22. For a non-empty phone number the verify-phone handler answers
    [exists: true] exactly when the register handler, asked to register that
    number, answers 409, whatever other requests do while it runs. *)
Theorem verifyPhone_agrees_with_register (d : InsertUser.t) (during : list Op)
  (s : MemStorage) (Hphone : InsertUser.phoneNumber d <> ""%string) :
  verifyPhone (Some (InsertUser.phoneNumber d)) s = mkReply 200 (JExists true)
  <-> status (fst (register hashPassword (Some d) during s)) = 409.
Proof.
  unfold verifyPhone, register, missing, truthy_string.
  destruct (String.eqb_spec (InsertUser.phoneNumber d) ""); [contradiction|].
  cbn [negb text].
  destruct (getUserByPhoneNumber (InsertUser.phoneNumber d) s).
  - cbn. tauto.
  - destruct (createUser _ (run during s)). cbn. split; discriminate.
Qed.
End HandlerFacts.

Lemma verifyPhone_agrees_with_register_witness :
  verifyPhone (Some "+15550001"%string) sample = mkReply 200 (JExists true)
  /\ status (fst (register (fun p => p)
                     (Some (InsertUser.mk "al" "pw" "+15550001" None None))
                     [OpDeleteTodo 1] sample)) = 409.
Proof.
  assert (H : verifyPhone (Some "+15550001"%string) sample
              = mkReply 200 (JExists true)) by reflexivity.
  split; [exact H|].
  exact (proj1 (verifyPhone_agrees_with_register (fun p => p)
                  (InsertUser.mk "al" "pw" "+15550001" None None)
                  [OpDeleteTodo 1] sample ltac:(discriminate)) H).
Defined.

Lemma register_outcome_witness :
  let d := InsertUser.mk "carol" "pw" "+15550003" None None in
  let rival := InsertUser.mk "carla" "#x" "+15550003" None None in
  let r := register (fun p => ("#" ++ p)%string) (Some d)
                    [OpCreateUser rival] sample in
  status (fst r) = 201
  /\ option_map User.username (getUser 4 (snd r)) = Some "carol"%string
  /\ option_map User.password (getUser 4 (snd r)) = Some "#pw"%string
  /\ option_map User.username (getUserByPhoneNumber "+15550003" (snd r))
     = Some "carla"%string.
Proof.
  cbv zeta.
  pose proof (register_outcome (fun p => ("#" ++ p)%string)
                (InsertUser.mk "carol" "pw" "+15550003" None None)
                [OpCreateUser (InsertUser.mk "carla" "#x" "+15550003" None None)]
                sample (reachable_run sample_ops init reach_init)) as H.
  cbv zeta in H.
  change (getUserByPhoneNumber
            (InsertUser.phoneNumber
               (InsertUser.mk "carol" "pw" "+15550003" None None)) sample)
    with (@None User.t) in H.
  destruct H as [Hstatus (user & Hbody & Hstored & Hpw & Hname & Hphone & Hlook)].
  split; [exact Hstatus|].
  assert (Hid : User.id user = 4) by (cbn in Hbody; now injection Hbody).
  rewrite Hid in Hstored. cbn [InsertUser.phoneNumber] in Hlook.
  rewrite Hstored, Hlook. cbn [option_map].
  rewrite Hname, Hpw. repeat split.
Defined.

Lemma register_keeps_phones_distinct_witness :
  let d := InsertUser.mk "carol" "pw" "+15550003" None None in
  let rival := InsertUser.mk "carla" "#x" "+15550003" None None in
  getUserByPhoneNumber "+15550003" (run [OpCreateUser rival] sample) <> None
  /\ ~ NoDup (phones (snd (register (fun p => ("#" ++ p)%string) (Some d)
                             [OpCreateUser rival] sample))).
Proof.
  cbv zeta.
  assert (Hdistinct : NoDup (phones (run [OpCreateUser
            (InsertUser.mk "carla" "#x" "+15550003" None None)] sample))).
  { vm_compute. repeat constructor; simpl; intuition discriminate. }
  pose proof (register_keeps_phones_distinct (fun p => ("#" ++ p)%string)
                (InsertUser.mk "carol" "pw" "+15550003" None None)
                [OpCreateUser (InsertUser.mk "carla" "#x" "+15550003" None None)]
                sample (reachable_run sample_ops init reach_init)
                eq_refl Hdistinct) as [Hif _].
  assert (Hrival : getUserByPhoneNumber "+15550003"
                     (run [OpCreateUser
                             (InsertUser.mk "carla" "#x" "+15550003" None None)]
                          sample) <> None) by (vm_compute; discriminate).
  split; [exact Hrival|]. intros Hnd. exact (Hrival (Hif Hnd)).
Defined.

Lemma login_after_register_witness :
  let hash := fun p => ("#" ++ p)%string in
  let check := fun p stored => String.eqb ("#" ++ p) stored in
  let d := InsertUser.mk "carol" "pw" "+15550003" None None in
  let r := register hash (Some d) [OpDeleteTodo 1] sample in
  status (fst r) = 201
  /\ login check (Some "+15550003"%string) (Some "pw"%string) (snd r)
     = mkReply 200 (payload (fst r)).
Proof.
  exact (login_after_register
           (fun p => ("#" ++ p)%string)
           (fun p stored => String.eqb ("#" ++ p) stored)
           (InsertUser.mk "carol" "pw" "+15550003" None None)
           [OpDeleteTodo 1] sample
           (fun p => String.eqb_refl _)
           (reachable_run sample_ops init reach_init)
           eq_refl eq_refl ltac:(discriminate) ltac:(discriminate)).
Defined.

(** X26. The board update handler answers 400 with the store as it was when
    the handle in the path is not a number, and 404 with the store as it was
    when no board is stored under the handle.  Otherwise it answers 200 with
    the board it stored: [id], [createdBy] and [createdAt] are as they were,
    and [title], [description] and [color] are what the request body holds
    for them, which is [undefined] for each one the body leaves out.
    Accounts, memberships, todos, the four counters and the boards under
    other handles are as they were. *)
Theorem putBoard_outcome (boardId : option Z) (title : undefinable string)
  (description : undefinable (option string)) (color : undefinable string)
  (s : MemStorage) :
  let r := putBoard boardId title description color s in
  match boardId with
  | None =>
      r = (mkReply 400 (JMessage "Valid board ID is required"), s)
  | Some id =>
      match getBoard id s with
      | None => r = (mkReply 404 (JMessage "Board not found"), s)
      | Some old =>
          let new := Board.mk (Board.id old) title description color
                              (Board.createdBy old) (Board.createdAt old) in
          fst r = mkReply 200 (JBoard new)
          /\ getBoard id (snd r) = Some new
          /\ (forall id', id' <> id -> getBoard id' (snd r) = getBoard id' s)
          /\ users (snd r) = users s
          /\ boardMembers (snd r) = boardMembers s
          /\ todos (snd r) = todos s
          /\ (forall k, counter k (snd r) = counter k s)
      end
  end.
Proof.
  cbv zeta. destruct boardId as [id|]; [|reflexivity].
  unfold putBoard, updateBoard, getBoard.
  destruct (JsMap.get id (boards s)) as [old|] eqn:Hget; [|reflexivity].
  cbn [fst snd boards set_boards users boardMembers todos].
  split; [reflexivity|]. split; [apply JsMapFacts.get_set_eq|].
  split; [intros id' Hne; apply JsMapFacts.get_set_ne; congruence|].
  repeat split.
Qed.
